(** * ir-attx4: the packet protocol of the infrared module driver (index.js)

    A shallow embedding of [index.js].  Bus transfers, timers and the
    event emitter are asynchronous in the source; here every function
    that takes a completion callback takes a continuation, the answers
    of the peripheral are read from a script of transfer outcomes, and
    everything observable is appended to a trace of events. *)

From Stdlib Require Import ZArith QArith Lia Bool String.
From stdpp Require Import base list gmap.

Local Open Scope Z_scope.

(** ** Protocol constants (index.js, lines 14-33) *)

Definition PACKET_CONF : Z := 0x55.
Definition ACK_CONF : Z := 0x33.
Definition FIN_CONF : Z := 0x16.

Definition ACK_CMD : Z := 0x00.
Definition FIRMWARE_CMD : Z := 0x01.
Definition IR_TX_CMD : Z := 0x02.
Definition IR_RX_AVAIL_CMD : Z := 0x03.
Definition IR_RX_CMD : Z := 0x04.
Definition RX_START_CMD : Z := 0x05.
Definition RX_STOP_CMD : Z := 0x06.
Definition CRC_CMD : Z := 0x06.
Definition MAX_SIGNAL_DURATION : Z := 200.

Definition FIRMWARE_VERSION : Z := 0x02.
Definition CRC_HIGH : Z := 0x79.
Definition CRC_LOW : Z := 0xA8.

(** ** JavaScript values that occur in the protocol code *)

(** A byte buffer ([Buffer]) holds integers in [0, 255]. *)
Definition is_byte (b : Z) : Prop := 0 <= b < 256.
Definition is_buffer (l : list Z) : Prop := Forall is_byte l.

(** Entries of an expected-response template: the literal [false] or a
    number.  Numbers are rationals, because [signalDurations.length / 2]
    is a half-integer for an odd length. *)
Inductive jsval : Type :=
  | JFalse
  | JNum (q : Q).

Definition num (z : Z) : jsval := JNum (inject_Z z).

(** [e == false]: loose equality converts [false] to the number 0. *)
Definition loose_eq_false (e : jsval) : bool :=
  match e with
  | JFalse => true
  | JNum q => Qeq_bool q 0
  end.

(** [e != values[index]], where [values[index]] is a byte of the buffer
    or [undefined] past its end (a number or [false] never loosely
    equals [undefined]). *)
Definition loose_neq (e : jsval) (v : option Z) : bool :=
  match v with
  | None => true
  | Some b =>
      match e with
      | JFalse => negb (Z.eqb b 0)
      | JNum q => negb (Qeq_bool q (inject_Z b))
      end
  end.

(** [new Buffer(array)] stores each number as an unsigned byte: the
    fraction is dropped and the integer is reduced modulo 256. *)
Definition to_uint8 (q : Q) : Z := (Z.quot (Qnum q) (Zpos (Qden q))) mod 256.

Definition Buffer (tx : list Q) : list Z := map to_uint8 tx.

(** [buf.slice(start, end)] for [0 <= start] and [0 <= end]: [end] is
    clamped to the length and an empty range gives an empty buffer. *)
Definition slice (start end_ : nat) (buf : list Z) : list Z :=
  take (end_ - start) (drop start buf).

(** ** _validateResponse (index.js, lines 310-324)

    The loop runs [index] over the template; [expected] below is the
    part of the template from [index] on. *)
Fixpoint validate_from (index : nat) (values : list Z) (expected : list jsval)
  : bool :=
  match expected with
  | [] => true
  | e :: rest =>
      if loose_eq_false e then validate_from (S index) values rest
      else if loose_neq e (values !! index) then false
      else validate_from (S index) values rest
  end.

Definition _validateResponse (values : list Z) (expected : list jsval) : bool :=
  validate_from 0 values expected.

(** When the transfer handed back no buffer, [values] is [undefined] and
    the first [values[index]] that is evaluated raises a TypeError: the
    loop only survives a template whose entries are all skipped. *)
Definition validate_undefined (expected : list jsval) : option bool :=
  if forallb loose_eq_false expected then Some true else None.

(** ** Driver state, events and the transfer script *)

Record device : Type := mkDevice {
  transmitting : bool;
  listening : bool;
  connected : bool;
  irq_high : nat;          (* one-shot 'high' listeners on the irq pin *)
  data_listeners : nat     (* listeners of the emitter's 'data' event *)
}.

Inductive error : Type :=
  | ETransfer                (* the err handed over by spi.transfer *)
  | EInvalidFrequency
  | EInvalidBufferLength
  | EInvalidBufferSize
  | EInvalidTxResponse
  | ECantConnect
  | EFirmwareVersion
  | ERxOnOff.

Inductive exn : Type :=
  | ReferenceError (name : string)
  | TypeError
  | RangeError.

Inductive event : Type :=
  | Transfer (tx : list Z)           (* spi.transfer(tx, ...) is issued *)
  | EmitData (buf : list Z)          (* self.emit('data', buf) *)
  | EmitReady                        (* self.emit('ready') *)
  | EmitError (e : error)            (* self.emit('error', e) *)
  | Callback (e : option error)      (* the caller's callback is invoked *)
  | FirmwareCheck (version : option Z) (* checkForFirmwareUpdate is entered *)
  | Flash                            (* firmware.update(hardware, fname, ...) *)
  | TimerSet (ms : Z)                 (* setTimeout(..., ms) *)
  | IrqOnce                          (* irq.once('high', _IRQHandler) *)
  | IrqRemoveAll                     (* irq.removeAllListeners() *)
  | Warn.                            (* console.warn(...) *)

(** What the transport hands to a transfer's completion callback. *)
Inductive outcome : Type :=
  | Failed                           (* err set, no response buffer *)
  | Received (response : list Z).

(** How a chain of callbacks ends. *)
Inductive halt : Type :=
  | Idle                             (* every callback has returned *)
  | Pending                          (* a transfer never completes *)
  | Thrown (e : exn).                (* an exception left a callback *)

(** The two closures the constructor queues with [setImmediate]: they
    run when the current turn of the event loop is over, before the next
    transfer completes. *)
Inductive task : Type :=
  | EmitErrorTask (err : error)      (* emitError: self.emit('error', err) *)
  | ReadyTask.                       (* self.emit('ready'); irq.once(...) *)

Record world : Type := mkWorld {
  dev : device;
  immediates : list task
}.

Record run : Type := mkRun {
  events : list event;
  final : device;
  halted : halt
}.

Definition cont : Type := world -> list outcome -> run.

Definition log (e : event) (r : run) : run :=
  mkRun (e :: events r) (final r) (halted r).

Definition logs (es : list event) (r : run) : run :=
  mkRun (es ++ events r) (final r) (halted r).

Definition update (f : device -> device) (k : cont) : cont :=
  fun w => k (mkWorld (f (dev w)) (immediates w)).

Definition setImmediate (t : task) (k : cont) : cont :=
  fun w => k (mkWorld (dev w) (immediates w ++ [t])).

Definition set_transmitting (b : bool) (d : device) : device :=
  mkDevice b (listening d) (connected d) (irq_high d) (data_listeners d).
Definition set_listening (b : bool) (d : device) : device :=
  mkDevice (transmitting d) b (connected d) (irq_high d) (data_listeners d).
Definition set_connected (b : bool) (d : device) : device :=
  mkDevice (transmitting d) (listening d) b (irq_high d) (data_listeners d).
Definition set_irq_high (n : nat) (d : device) : device :=
  mkDevice (transmitting d) (listening d) (connected d) n (data_listeners d).
Definition set_data_listeners (n : nat) (d : device) : device :=
  mkDevice (transmitting d) (listening d) (connected d) (irq_high d) n.

Definition run_task (t : task) (d : device) : list event * device :=
  match t with
  | EmitErrorTask err => ([EmitError err], d)
  | ReadyTask => ([EmitReady; IrqOnce], set_irq_high (S (irq_high d)) d)
  end.

Fixpoint flush (ts : list task) (d : device) : list event * device :=
  match ts with
  | [] => ([], d)
  | t :: ts' =>
      let '(es, d') := run_task t d in
      let '(es', d'') := flush ts' d' in
      (es ++ es', d'')
  end.

(** The turn ends: queued immediates run, then the loop waits. *)
Definition end_turn (w : world) (k : cont) (script : list outcome) : run :=
  let '(es, d) := flush (immediates w) (dev w) in
  logs es (k (mkWorld d []) script).

Definition stop (h : halt) : cont :=
  fun w script =>
    match h with
    | Thrown _ => mkRun [] (dev w) h
    | _ => end_turn w (fun w' _ => mkRun [] (dev w') h) script
    end.

(** [spi.transfer(tx, callback)]: the frame goes out, the turn ends, and
    the callback runs with the next outcome of the script. *)
Definition spi_transfer (tx : list Z) (callback : outcome -> cont) : cont :=
  fun w script =>
    log (Transfer tx)
      match script with
      | [] => stop Pending w []
      | o :: rest => end_turn w (callback o) rest
      end.

(** ** getFirmwareVersion (index.js, lines 296-308) *)

Definition getFirmwareVersion (callback : option error -> option Z -> cont)
  : cont :=
  spi_transfer (Buffer [inject_Z FIRMWARE_CMD; 0%Q; 0%Q]) (fun o =>
    match o with
    | Failed => callback (Some ETransfer) None
    | Received response =>
        if _validateResponse response [JFalse; num FIRMWARE_CMD]
           && (length response =? 3)%nat
        then callback None (response !! 2%nat)
        else callback (Some EFirmwareVersion) None
    end).

(** ** _establishCommunication (index.js, lines 269-294) *)

Fixpoint _establishCommunication (retries : Z)
    (callback : option error -> option Z -> cont)
    (w : world) (script : list outcome) {struct script} : run :=
  getFirmwareVersion (fun err version w' script' =>
    match err with
    | Some _ =>
        let retries := retries - 1 in
        if retries =? 0 then callback (Some ECantConnect) None w' script'
        else _establishCommunication retries callback w' script'
    | None =>
        update (set_connected true) (callback None version) w' script'
    end) w script.

(** ** Small pieces shared by the functions below *)

Definition emit (e : event) (k : cont) : cont :=
  fun w script => log e (k w script).

(** [callback && callback(err)] for the caller's optional callback. *)
Definition user (callback : bool) (err : option error) (k : cont) : cont :=
  if callback then emit (Callback err) k else k.

(** [setTimeout(f, ms)]: the turn ends and [f] runs later. *)
Definition setTimeout (ms : Z) (f : cont) : cont :=
  fun w script => log (TimerSet ms) (end_turn w f script).

(** [self._validateResponse(response, expected, callback)] on what a
    transfer delivered. *)
Definition validating (o : outcome) (expected : list jsval) (k : bool -> cont)
  : cont :=
  match o with
  | Received values => k (_validateResponse values expected)
  | Failed =>
      match validate_undefined expected with
      | Some res => k res
      | None => stop (Thrown TypeError)
      end
  end.

Definition irq_once (k : cont) : cont :=
  emit IrqOnce (update (fun d => set_irq_high (S (irq_high d)) d) k).

Definition irq_removeAllListeners (k : cont) : cont :=
  emit IrqRemoveAll (update (set_irq_high 0) k).

(** Modelled from the spec: the Firmware Programmer ([./lib/firmware],
    which is not among the sources) "exposes flash(image) -> completion";
    [firmware.update(hardware, fname, done)] is the reflash, and [done]
    runs in a later turn. *)
Definition firmware_update (done : cont) : cont :=
  fun w script => log Flash (end_turn w done script).

(** ** readFirmwareCRC and updateFirmware (index.js, lines 337-366)

    The two methods call each other.  [readFirmwareCRC] recurses on the
    script, one outcome per query, and carries the body of
    [updateFirmware] at the place of the call;
    [readFirmwareCRC_escalation] below shows it is that call. *)
Fixpoint readFirmwareCRC (retries : Z) (callback : option error -> cont)
    (w : world) (script : list outcome) {struct script} : run :=
  spi_transfer (Buffer [inject_Z CRC_CMD; 0%Q; 0%Q; 0%Q]) (fun o w' script' =>
    match o with
    | Failed => callback (Some ETransfer) w' script'
    | Received res =>
        if _validateResponse res
             [JFalse; num CRC_CMD; num CRC_HIGH; num CRC_LOW]
           && (length res =? 4)%nat
        then callback None w' script'
        else
          let retries := retries - 1 in
          if 0 <? retries then readFirmwareCRC retries callback w' script'
          else
            (* self.updateFirmware(FIRMWARE_FILE, callback) *)
            firmware_update
              (setTimeout 500 (fun w'' script'' =>
                 readFirmwareCRC 5 callback w'' script'')) w' script'
    end) w script.

Definition updateFirmware (callback : option error -> cont) : cont :=
  firmware_update (setTimeout 500 (readFirmwareCRC 5 callback)).

(** ** checkForFirmwareUpdate (index.js, lines 326-335) *)

Definition checkForFirmwareUpdate (version : option Z)
    (callback : option error -> cont) : cont :=
  emit (FirmwareCheck version)
    (match version with
     | Some v =>
         if v <? FIRMWARE_VERSION then updateFirmware callback
         else callback None
     | None => callback None     (* undefined < 2 is false *)
     end).

(** ** setListening (index.js, lines 123-149) *)

Definition setListening (set : bool) (callback : option (option error -> cont))
  : cont :=
  let cmd := if set then RX_START_CMD else RX_STOP_CMD in
  let reply err :=
    match callback with Some k => k err | None => stop Idle end in
  spi_transfer (Buffer [inject_Z cmd; 0%Q; 0%Q]) (fun o =>
    validating o [num PACKET_CONF; num cmd] (fun valid =>
      if negb valid then reply (Some ERxOnOff)
      else
        update (set_listening set) (fun w =>
          if negb (listening (dev w)) then
            irq_removeAllListeners (reply None) w
          else if (irq_high (dev w) =? 0)%nat then
            irq_once (reply None) w
          else reply None w))).

(** ** The emitter hooks of the constructor (index.js, lines 50-62)

    ['newListener'] fires before the listener is added, ['removeListener']
    after it is removed; removing a listener that is not registered fires
    nothing. *)
Definition on_data : cont :=
  fun w =>
    let n := data_listeners (dev w) in
    update (set_data_listeners (S n))
      (if (n =? 0)%nat then setListening true None else stop Idle) w.

Definition removeListener_data : cont :=
  fun w =>
    match data_listeners (dev w) with
    | O => stop Idle w
    | S n =>
        update (set_data_listeners n)
          (if (n =? 0)%nat then setListening false None else stop Idle) w
    end.

(** ** _fetchRXDurations and _IRQHandler (index.js, lines 108-121, 151-197) *)

(** Names bound where line 189 evaluates [data]: the locals and
    parameters of the enclosing functions, then the module's own
    declarations and the names of the module wrapper. *)
Definition fetch_scope : list string :=
  [ "err"; "response"; "fin"; "buf"; "spiComplete";
    "valid"; "numInt16"; "numBytes"; "rxHeader"; "packet";
    "callback"; "self"; "arguments";
    "util"; "EventEmitter"; "firmware";
    "PACKET_CONF"; "ACK_CONF"; "FIN_CONF";
    "ACK_CMD"; "FIRMWARE_CMD"; "IR_TX_CMD"; "IR_RX_AVAIL_CMD"; "IR_RX_CMD";
    "RX_START_CMD"; "RX_STOP_CMD"; "CRC_CMD"; "MAX_SIGNAL_DURATION";
    "FIRMWARE_VERSION"; "CRC_HIGH"; "CRC_LOW"; "FIRMWARE_FILE";
    "Infrared"; "updateFirmware"; "use";
    "exports"; "require"; "module"; "__filename"; "__dirname" ]%string.

(** The properties of the global object of ECMAScript 5 and the ones
    Node adds to it. *)
Definition node_globals : list string :=
  [ "NaN"; "Infinity"; "undefined"; "eval"; "parseInt"; "parseFloat";
    "isNaN"; "isFinite"; "decodeURI"; "decodeURIComponent"; "encodeURI";
    "encodeURIComponent"; "escape"; "unescape";
    "Object"; "Function"; "Array"; "String"; "Boolean"; "Number"; "Date";
    "RegExp"; "Error"; "EvalError"; "RangeError"; "ReferenceError";
    "SyntaxError"; "TypeError"; "URIError"; "Math"; "JSON";
    "global"; "GLOBAL"; "root"; "process"; "console"; "Buffer";
    "setTimeout"; "clearTimeout"; "setInterval"; "clearInterval";
    "setImmediate"; "clearImmediate";
    "ArrayBuffer"; "DataView"; "Int8Array"; "Uint8Array";
    "Uint8ClampedArray"; "Int16Array"; "Uint16Array"; "Int32Array";
    "Uint32Array"; "Float32Array"; "Float64Array" ]%string.

Section Host.

(** The names the host's global object defines. *)
Variable globals : list string.

(** Reading an identifier that no scope binds raises a ReferenceError. *)
Definition resolves (id : string) : bool :=
  existsb (String.eqb id) (fetch_scope ++ globals).

Definition _fetchRXDurations (callback : option cont) : cont :=
  let done := match callback with Some k => k | None => stop Idle end in
  spi_transfer
    (Buffer [inject_Z IR_RX_AVAIL_CMD; 0%Q; 0%Q; 0%Q]) (fun o =>
    validating o [num PACKET_CONF; num IR_RX_AVAIL_CMD; num 1] (fun valid =>
      if valid then
        match o with
        | Failed => stop (Thrown TypeError)       (* response[3] *)
        | Received response =>
            match response !! 3%nat with
            | None => stop (Thrown RangeError)    (* new Array(NaN) *)
            | Some numInt16 =>
                let numBytes := numInt16 * 2 in
                let rxHeader := [inject_Z IR_RX_CMD; 0%Q; 0%Q] in
                (* the holes of new Array(numBytes) become zero bytes *)
                let packet :=
                  rxHeader ++ replicate (Z.to_nat numBytes) 0%Q in
                let packet := packet ++ [inject_Z FIN_CONF] in
                spi_transfer (Buffer packet) (fun o =>
                  match o with
                  | Failed => stop (Thrown TypeError)  (* response.length *)
                  | Received response =>
                      let fin := response !! (length response - 1)%nat in
                      if loose_neq (num FIN_CONF) fin then
                        emit Warn done
                      else
                        let buf :=
                          slice (length rxHeader) (length response - 1)
                            response in
                        let buf := slice 2 (length response - 1) buf in
                        (* console.log('emitting data!', data) *)
                        if resolves "data" then
                          emit (EmitData buf) done
                        else stop (Thrown (ReferenceError "data"))
                  end)
            end
        end
      else stop Idle)).

(** One run of the interrupt handler.  While a transmission is in
    progress the handler only sets a timer that enters it again 500 ms
    later; that later entry is another run of [_IRQHandler]. *)
Definition _IRQHandler : cont :=
  fun w =>
    if negb (transmitting (dev w)) then
      _fetchRXDurations (Some (irq_once (stop Idle))) w
    else
      emit (TimerSet 500) (stop Idle) w.

End Host.

(** ** The constructor (index.js, lines 35-104) *)

Definition new_device : device := mkDevice false false false 0 0.

Definition emitError (err : error) (k : cont) : cont :=
  setImmediate (EmitErrorTask err) k.

(** The callbacks [listeningSet] (line 94) and [afterUpdate] (line 77). *)
Definition listeningSet (callback : bool) (err : option error) : cont :=
  user callback err (stop Idle).

Definition afterUpdate (callback : bool) (err : option error) : cont :=
  match err with
  | Some e => emitError e (stop Idle)
  | None =>
      update (set_connected true)
        (setImmediate ReadyTask
           (setListening false (Some (listeningSet callback))))
  end.

Definition Infrared (callback : bool) : cont :=
  update (fun d => set_listening false (set_transmitting false d))
    (_establishCommunication 3 (fun err version =>
       match err with
       | Some e => emitError e (stop Idle)
       | None => checkForFirmwareUpdate version (afterUpdate callback)
       end)).

(** ** The exported functions (index.js, lines 199-205 and 383-385)

    [use] is the constructor under another name.  The exported
    [updateFirmware] (not the method of the same name) reflashes and
    calls back, without a CRC check. *)
Definition use (callback : bool) : cont := Infrared callback.

Module Exported.

Definition updateFirmware (callback : bool) : cont :=
  firmware_update (user callback None (stop Idle)).

End Exported.

(** ** _constructTXPacket and sendRawSignal (index.js, lines 207-267)

    [frequency] is a JavaScript number (a rational here),
    [signalDurations] the bytes of a [Buffer], and [callback] tells
    whether the caller passed a callback. *)

Definition _constructTXPacket (frequency : Q) (signalDurations : list Z)
  : list Z :=
  let tx := [] in
  let tx := tx ++ [inject_Z IR_TX_CMD] in
  let tx := tx ++ [frequency] in
  let tx := tx ++ [inject_Z (Z.of_nat (length signalDurations)) / 2]%Q in
  let tx := tx ++ map inject_Z signalDurations in
  let tx := tx ++ [0%Q] in
  let tx := tx ++ [inject_Z FIN_CONF] in
  Buffer tx.

(** The template the echo of a transmission is validated against. *)
Definition tx_echo (frequency : Q) (signalDurations : list Z) : list jsval :=
  [ num PACKET_CONF; num IR_TX_CMD; JNum frequency;
    JNum (inject_Z (Z.of_nat (length signalDurations)) / 2) ].

Definition sendRawSignal (frequency : Q) (signalDurations : list Z)
    (callback : bool) : cont :=
  if Qle_bool frequency 0 then
    user callback (Some EInvalidFrequency) (stop Idle)
  else if MAX_SIGNAL_DURATION <? Z.of_nat (length signalDurations) then
    user callback (Some EInvalidBufferLength) (stop Idle)
  else
    (if negb (Z.of_nat (length signalDurations) mod 2 =? 0)
     then user callback (Some EInvalidBufferSize)
     else fun k => k)
      (update (set_transmitting true)
         (let tx := _constructTXPacket frequency signalDurations in
          spi_transfer tx (fun o =>
            update (set_transmitting false)
              (validating o (tx_echo frequency signalDurations) (fun valid =>
                 let err :=
                   if negb valid then Some EInvalidTxResponse else None in
                 user callback err (stop Idle)))))).

(** ** timerAbstraction (index.js, lines 368-381) *)

(** [buffer.readInt16BE(offset)]: two's complement, high byte first; a
    read past the end raises a RangeError. *)
Definition readInt16BE (buffer : list Z) (offset : nat) : option Z :=
  match buffer !! offset, buffer !! S offset with
  | Some hi, Some lo =>
      let val := hi * 256 + lo in
      Some (if val <? 0x8000 then val else val - 0x10000)
  | _, _ => None
  end.

(** [buffer.writeInt16BE(value, offset)]: a value outside the signed
    16-bit range, or a write past the end, raises a RangeError. *)
Definition writeInt16BE (buffer : list Z) (value : Z) (offset : nat)
  : option (list Z) :=
  if (value <? -0x8000) || (0x7fff <? value)
     || (length buffer <? offset + 2)%nat
  then None
  else
    let val := value mod 0x10000 in
    Some (<[S offset := val mod 256]> (<[offset := val / 256]> buffer)).

(** The loop [for (i = 0; i < buffer.length; i += 2)]; [fuel] bounds the
    number of rounds.  The bytes written before an exception stay
    written. *)
Fixpoint timer_loop (fuel : nat) (i : nat) (buffer : list Z)
  : list Z * option exn :=
  match fuel with
  | O => (buffer, None)
  | S fuel' =>
      if (i <? length buffer)%nat then
        match readInt16BE buffer i with
        | None => (buffer, Some RangeError)
        | Some raw =>
            match writeInt16BE buffer (raw * 50) i with
            | None => (buffer, Some RangeError)
            | Some buffer' => timer_loop fuel' (i + 2) buffer'
            end
        end
      else (buffer, None)
  end.

(** Buffers are objects: the store maps a reference to the bytes it
    holds, and the function returns the reference it was given. *)
Inductive completion (A : Type) : Type :=
  | Normal (a : A)
  | Abrupt (e : exn).
Arguments Normal {A} a.
Arguments Abrupt {A} e.

Definition timerAbstraction (store : gmap nat (list Z)) (buffer : nat)
  : gmap nat (list Z) * completion nat :=
  match store !! buffer with
  | None => (store, Abrupt TypeError)
  | Some bytes =>
      let '(bytes', e) := timer_loop (length bytes) 0 bytes in
      (<[buffer := bytes']> store,
       match e with Some x => Abrupt x | None => Normal buffer end)
  end.

(** * Vocabulary of the statements *)

(** ** Worlds, continuations and events *)

(** A world with no closure queued. *)
Definition idle (d : device) : world := mkWorld d [].

(** A continuation is good when, from every world whose device
    satisfies [okdev], its run satisfies [T]. *)
Definition good (okdev : device -> Prop) (T : run -> Prop) (k : cont) : Prop :=
  forall w script, okdev (dev w) -> T (k w script).

Definition is_transfer (e : event) : bool :=
  match e with Transfer _ => true | _ => false end.

Definition is_callback (e : event) : bool :=
  match e with Callback _ => true | _ => false end.

Definition is_firmware_check (e : event) : bool :=
  match e with FirmwareCheck _ => true | _ => false end.

Definition is_flash (e : event) : bool :=
  match e with Flash => true | _ => false end.

(** The transfers of a trace, in order. *)
Definition transfers (es : list event) : list event :=
  List.filter is_transfer es.

(** The data signals of a trace, in order. *)
Definition data_events (es : list event) : list event :=
  List.filter (fun e => match e with EmitData _ => true | _ => false end) es.

(** How many times a trace arms an interrupt listener, calls the
    caller's callback, enters the firmware check, reflashes. *)
Definition armed (es : list event) : nat :=
  length
    (List.filter (fun e => match e with IrqOnce => true | _ => false end) es).

Definition callbacks (es : list event) : nat :=
  length (List.filter is_callback es).

Definition firmware_checks (es : list event) : nat :=
  length (List.filter is_firmware_check es).

Definition flashes (es : list event) : nat :=
  length (List.filter is_flash es).

(** ** Templates *)

(** The property the specification states of [validate]: an entry is a
    wildcard when it is the literal [false], and every other entry has
    to equal the response byte at its position. *)
Definition is_wildcard (e : jsval) : bool :=
  match e with JFalse => true | JNum _ => false end.

Definition equals_byte (e : jsval) (b : Z) : Prop :=
  match e with JFalse => False | JNum q => (q == inject_Z b)%Q end.

Definition matches_template (values : list Z) (expected : list jsval) : Prop :=
  forall i e, expected !! i = Some e -> is_wildcard e = false ->
    exists b, values !! i = Some b /\ equals_byte e b.

(** A template none of whose numbers is zero. *)
Definition no_zero_entry (expected : list jsval) : Prop :=
  forall i q, expected !! i = Some (JNum q) -> ~ (q == 0)%Q.

(** Two template entries that denote the same value. *)
Definition jsval_equiv (e1 e2 : jsval) : Prop :=
  match e1, e2 with
  | JFalse, JFalse => True
  | JNum p, JNum q => (p == q)%Q
  | _, _ => False
  end.

(** ** The frames the driver sends *)

Definition firmware_request : list Z :=
  Buffer [inject_Z FIRMWARE_CMD; 0%Q; 0%Q].

Definition crc_request : list Z :=
  Buffer [inject_Z CRC_CMD; 0%Q; 0%Q; 0%Q].

Definition rx_start_request : list Z :=
  Buffer [inject_Z RX_START_CMD; 0%Q; 0%Q].

Definition rx_stop_request : list Z := Buffer [inject_Z RX_STOP_CMD; 0%Q; 0%Q].

(** The two frames of a fetch: the availability query and the fetch of
    [numInt16] words. *)
Definition availability_request : list Z :=
  Buffer [inject_Z IR_RX_AVAIL_CMD; 0%Q; 0%Q; 0%Q].

Definition fetch_request (numInt16 : Z) : list Z :=
  Buffer (([inject_Z IR_RX_CMD; 0%Q; 0%Q]
             ++ replicate (Z.to_nat (numInt16 * 2)) 0%Q)
            ++ [inject_Z FIN_CONF]).

Definition availability_template : list jsval :=
  [num PACKET_CONF; num IR_RX_AVAIL_CMD; num 1].

(** ** Answers of the peripheral *)

(** The test [getFirmwareVersion] makes of a response, and the outcomes
    that make the query fail. *)
Definition version_query_ok (response : list Z) : bool :=
  _validateResponse response [JFalse; num FIRMWARE_CMD]
  && (length response =? 3)%nat.

Definition version_query_fails (o : outcome) : Prop :=
  match o with
  | Failed => True
  | Received response => version_query_ok response = false
  end.

(** The test [readFirmwareCRC] makes of a response, and the outcomes
    that are a CRC mismatch. *)
Definition crc_ok (res : list Z) : bool :=
  _validateResponse res [JFalse; num CRC_CMD; num CRC_HIGH; num CRC_LOW]
  && (length res =? 4)%nat.

Definition crc_mismatch (o : outcome) : Prop :=
  exists res, o = Received res /\ crc_ok res = false.

(** ** Invariants of the constructor's traces *)

(** Events other than the entry into the firmware check, and runs made
    of them that end with the connected flag set. *)
Definition quiet (e : event) : Prop := is_firmware_check e = false.

Definition stays_connected (r : run) : Prop :=
  Forall quiet (events r) /\ connected (final r) = true.

(** RX_STOP transfers, and events that are neither one of them nor a
    call of the caller's callback. *)
Definition is_rx_stop (e : event) : bool :=
  match e with
  | Transfer tx => bool_decide (tx = rx_stop_request)
  | _ => false
  end.

Definition rx_stops (es : list event) : nat :=
  length (List.filter is_rx_stop es).

Definition clean (e : event) : Prop :=
  is_rx_stop e = false /\ is_callback e = false.

(** The traces of the constructor: the callback has not been called, or
    it is the last event and one RX_STOP transfer precedes it. *)
Definition ctor_shape (r : run) : Prop :=
  callbacks (events r) = 0%nat \/
  exists pre e, events r = pre ++ [Callback e]
                /\ callbacks pre = 0%nat /\ rx_stops pre = 1%nat.

(** A run whose last event is a call of the caller's callback. *)
Definition ends_with_callback (r : run) : Prop :=
  exists pre e, events r = pre ++ [Callback e].

(** The answers to the CRC queries under which the firmware check of a
    reported version completes without error: none are asked for a
    current version; for an older one, after the reflash, mismatches
    and then a match. *)
Inductive firmware_check_passes (v : Z) : list outcome -> Prop :=
  | fw_current :
      FIRMWARE_VERSION <= v -> firmware_check_passes v []
  | fw_reflashed (mismatches : list outcome) (res : list Z) :
      v < FIRMWARE_VERSION ->
      Forall crc_mismatch mismatches -> crc_ok res = true ->
      firmware_check_passes v (mismatches ++ [Received res]).

(** A successful construction: fewer than three failed version queries,
    a version answer, a firmware check that passes, and an RX_STOP
    transfer that completes. *)
Definition successful_construction (script : list outcome) : Prop :=
  exists fails a v crc values rest,
    Forall version_query_fails fails /\ (length fails < 3)%nat
    /\ firmware_check_passes v crc
    /\ script = fails ++ Received [a; FIRMWARE_CMD; v]
                  :: crc ++ Received values :: rest.

(** ** Words *)

(** The range of a signed 16-bit word. *)
Definition int16 (v : Z) : Prop := -0x8000 <= v <= 0x7fff.

(** ** Vocabulary of the further properties *)

(** The events of a CRC verification before its callback: queries,
    reflashes and settle delays. *)
Definition crc_event (e : event) : Prop :=
  e = Transfer crc_request \/ e = Flash \/ e = TimerSet 500.

(** Every complete word of the buffer stays a signed 16-bit word when
    multiplied by 50. *)
Definition words_in_range (bytes : list Z) : Prop :=
  forall i raw, readInt16BE bytes (2 * i) = Some raw -> int16 (raw * 50).

(** The signals of the constructor, and the events that are neither a
    signal nor a call of the callback. *)
Definition is_signal (e : event) : bool :=
  match e with EmitReady | EmitError _ => true | _ => false end.

Definition signals (es : list event) : list event :=
  List.filter is_signal es.

Definition plain (e : event) : Prop :=
  is_signal e = false /\ is_callback e = false.

(** * Properties *)

(** ** Numbers *)

Lemma Qeq_bool_inject_Z (a b : Z) :
  Qeq_bool (inject_Z a) (inject_Z b) = (a =? b).
Proof.
  destruct (Z.eqb_spec a b) as [->|Hne].
  - apply Qeq_bool_iff. reflexivity.
  - apply not_true_is_false. intros H. apply Qeq_bool_iff in H.
    apply Hne. revert H. unfold Qeq, inject_Z. simpl. lia.
Qed.

Lemma to_uint8_inject_Z (z : Z) : to_uint8 (inject_Z z) = z mod 256.
Proof. unfold to_uint8, inject_Z. simpl. now rewrite Z.quot_1_r. Qed.

Lemma to_uint8_byte (b : Z) : is_byte b -> to_uint8 (inject_Z b) = b.
Proof.
  intros Hb. rewrite to_uint8_inject_Z. apply Z.mod_small. exact Hb.
Qed.

Lemma Buffer_bytes (l : list Z) :
  is_buffer l -> Buffer (map inject_Z l) = l.
Proof.
  unfold Buffer. induction 1 as [|b l Hb _ IH]; simpl; [reflexivity|].
  now rewrite to_uint8_byte, IH.
Qed.

(** ** _validateResponse *)

(** What the loop decides: an entry is skipped when it is loosely equal
    to [false]. *)
Lemma validate_from_true_iff (expected : list jsval) :
  forall index values,
    validate_from index values expected = true <->
    (forall i e, expected !! i = Some e -> loose_eq_false e = false ->
       loose_neq e (values !! (index + i)%nat) = false).
Proof.
  induction expected as [|a expected IH]; intros index values; simpl.
  - split; [intros _ i e H; destruct i; discriminate H | reflexivity].
  - split.
    + intros H i e Hi He. destruct i as [|i]; simpl in Hi.
      * injection Hi as ->. rewrite He in H. rewrite Nat.add_0_r.
        destruct (loose_neq e (values !! index)); [discriminate H | reflexivity].
      * replace (index + S i)%nat with (S index + i)%nat by lia.
        apply (proj1 (IH (S index) values)); auto.
        destruct (loose_eq_false a); [exact H|].
        destruct (loose_neq a (values !! index)); [discriminate H | exact H].
    + intros H.
      assert (Hrest : validate_from (S index) values expected = true).
      { apply IH. intros i e Hi He.
        replace (S index + i)%nat with (index + S i)%nat by lia.
        apply H; [exact Hi | exact He]. }
      destruct (loose_eq_false a) eqn:Ha; [exact Hrest|].
      specialize (H O a eq_refl Ha). rewrite Nat.add_0_r in H.
      now rewrite H.
Qed.

Lemma validate_true_iff (values : list Z) (expected : list jsval) :
  _validateResponse values expected = true <->
  (forall i e, expected !! i = Some e -> loose_eq_false e = false ->
     loose_neq e (values !! i) = false).
Proof. unfold _validateResponse. now rewrite validate_from_true_iff. Qed.

Lemma loose_neq_false_iff (e : jsval) (v : option Z) :
  is_wildcard e = false ->
  loose_neq e v = false <-> exists b, v = Some b /\ equals_byte e b.
Proof.
  destruct e as [|q]; [discriminate|]. intros _.
  destruct v as [b|]; simpl.
  - rewrite negb_false_iff, Qeq_bool_iff. split.
    + intros H. exists b. auto.
    + intros (b' & [= <-] & H). exact H.
  - split; [discriminate | intros (b & Hb & _); discriminate Hb].
Qed.

(** Every template the specification accepts is accepted by the code. *)
Lemma validate_complete (values : list Z) (expected : list jsval) :
  matches_template values expected -> _validateResponse values expected = true.
Proof.
  intros H. apply validate_true_iff. intros i e Hi He.
  assert (Hw : is_wildcard e = false) by (destruct e; [discriminate He | reflexivity]).
  apply loose_neq_false_iff; [exact Hw|]. apply (H i e Hi Hw).
Qed.

(** The converse needs a template without the number zero. *)
Lemma validate_sound (values : list Z) (expected : list jsval) :
  no_zero_entry expected ->
  _validateResponse values expected = true -> matches_template values expected.
Proof.
  intros Hnz H i e Hi Hw. apply loose_neq_false_iff; [exact Hw|].
  apply (proj1 (validate_true_iff values expected) H i e Hi).
  destruct e as [|q]; [discriminate Hw|]. simpl.
  apply not_true_is_false. intros Hq. apply Qeq_bool_iff in Hq.
  exact (Hnz i q Hi Hq).
Qed.

(** X1.  Replacing any entry of a template by the wildcard [false] keeps
    an accepted response accepted. *)
Lemma validate_wildcard_monotone (values : list Z) (expected : list jsval)
    (i : nat) :
  _validateResponse values expected = true ->
  _validateResponse values (<[i := JFalse]> expected) = true.
Proof.
  rewrite !validate_true_iff. intros H j e Hj He.
  destruct (decide (i = j)) as [->|Hne].
  - destruct (decide (j < length expected)%nat) as [Hlt|Hge].
    + rewrite list_lookup_insert_eq in Hj by exact Hlt.
      injection Hj as <-. discriminate He.
    + rewrite list_insert_ge in Hj by lia. now apply H.
  - rewrite list_lookup_insert_ne in Hj by exact Hne. now apply H.
Qed.

(** C3 (code defect).  The echo template of a transmission with an empty
    duration buffer ends in the number 0, which [== false] skips like a
    wildcard: a response whose word count is 77 is accepted although the
    template asks for 0. *)
Theorem validate_skips_expected_zero :
  tx_echo 38 [] !! 3%nat = Some (JNum (inject_Z 0 / 2)) /\
  _validateResponse [PACKET_CONF; IR_TX_CMD; 38; 77] (tx_echo 38 []) = true /\
  ~ matches_template [PACKET_CONF; IR_TX_CMD; 38; 77] (tx_echo 38 []).
Proof.
  split; [reflexivity|]. split; [reflexivity|].
  intros H. destruct (H 3%nat _ eq_refl eq_refl) as (b & Hb & He).
  injection Hb as <-. discriminate He.
Qed.

(** ** sendRawSignal and the frame it sends *)

Lemma half_length_byte (n : Z) :
  0 <= n <= MAX_SIGNAL_DURATION -> to_uint8 (inject_Z n / 2) = n / 2.
Proof.
  unfold MAX_SIGNAL_DURATION, to_uint8. intros Hn. simpl.
  rewrite Z.mul_1_r, Z.quot_div_nonneg by lia.
  apply Z.mod_small. split; [apply Z.div_pos; lia|].
  apply Z.div_lt_upper_bound; lia.
Qed.

Lemma half_length_even (n : Z) :
  n mod 2 = 0 -> (inject_Z n / 2 == inject_Z (n / 2))%Q.
Proof.
  intros Hn. unfold Qeq, Qdiv, Qmult, Qinv, inject_Z. simpl.
  rewrite (Z.div_mod n 2) at 1 by lia. lia.
Qed.

Lemma positive_frequency (frequency : Q) :
  (0 < frequency)%Q -> Qle_bool frequency 0 = false.
Proof.
  intros Hf. apply not_true_is_false. intros Hle.
  apply Qle_bool_iff in Hle. exact (Qlt_not_le _ _ Hf Hle).
Qed.

Lemma constructTXPacket_layout (frequency : Q) (signalDurations : list Z) :
  is_buffer signalDurations ->
  Z.of_nat (length signalDurations) <= MAX_SIGNAL_DURATION ->
  _constructTXPacket frequency signalDurations =
    [IR_TX_CMD; to_uint8 frequency; Z.of_nat (length signalDurations) / 2]
      ++ signalDurations ++ [0; FIN_CONF].
Proof.
  intros Hbuf Hlen. unfold _constructTXPacket, Buffer. simpl.
  rewrite !map_app. fold (Buffer (map inject_Z signalDurations)).
  rewrite Buffer_bytes by exact Hbuf.
  rewrite half_length_byte by lia. rewrite !to_uint8_inject_Z.
  rewrite <- app_assoc. reflexivity.
Qed.

(** A request that passes the three checks: the flag is raised, the
    frame goes out, and the completion clears the flag and validates the
    echo. *)
Lemma sendRawSignal_accepted (frequency : Q) (signalDurations : list Z)
    (callback : bool) (d : device) (values : list Z) (rest : list outcome) :
  (0 < frequency)%Q ->
  Z.of_nat (length signalDurations) <= MAX_SIGNAL_DURATION ->
  Z.of_nat (length signalDurations) mod 2 = 0 ->
  sendRawSignal frequency signalDurations callback (idle d)
    (Received values :: rest) =
  mkRun
    (Transfer (_constructTXPacket frequency signalDurations) ::
     if callback then
       [Callback
          (if _validateResponse values (tx_echo frequency signalDurations)
           then None else Some EInvalidTxResponse)]
     else [])
    (set_transmitting false (set_transmitting true d)) Idle.
Proof.
  intros Hf Hlen Heven. unfold sendRawSignal.
  rewrite (positive_frequency frequency) by assumption.
  destruct (Z.ltb_spec MAX_SIGNAL_DURATION
              (Z.of_nat (length signalDurations))) as [?|_]; [lia|].
  rewrite Heven. change (negb (0 =? 0)) with false. cbv iota beta.
  unfold update, spi_transfer, validating, end_turn, idle. simpl.
  destruct callback;
    destruct (_validateResponse values (tx_echo frequency signalDurations));
    reflexivity.
Qed.

(** A frequency that is an integer between 1 and 255 is its own byte. *)
Lemma integer_frequency_byte (frequency : Q) (f : Z) :
  (frequency == inject_Z f)%Q -> 0 <= f < 256 -> to_uint8 frequency = f.
Proof.
  intros Hq Hf. unfold to_uint8. unfold Qeq in Hq. simpl in Hq.
  rewrite Z.mul_1_r in Hq. rewrite Hq, Z.quot_mul by lia.
  apply Z.mod_small. exact Hf.
Qed.

Lemma integer_frequency_positive (frequency : Q) (f : Z) :
  (frequency == inject_Z f)%Q -> 0 < f -> (0 < frequency)%Q.
Proof.
  intros Hq Hf. unfold Qeq in Hq. unfold Qlt. simpl in *.
  rewrite Z.mul_1_r in *. rewrite Hq. apply Z.mul_pos_pos; lia.
Qed.

Lemma frame_bytes (f : Z) (signalDurations : list Z) :
  0 <= f < 256 ->
  is_buffer signalDurations ->
  Z.of_nat (length signalDurations) <= MAX_SIGNAL_DURATION ->
  is_buffer ([IR_TX_CMD; f; Z.of_nat (length signalDurations) / 2]
               ++ signalDurations ++ [0; FIN_CONF]).
Proof.
  unfold MAX_SIGNAL_DURATION. intros Hf Hbuf Hlen.
  assert (Hhalf : is_byte (Z.of_nat (length signalDurations) / 2)).
  { split; [apply Z.div_pos; lia|]. apply Z.div_lt_upper_bound; lia. }
  unfold is_buffer. apply Forall_app. split.
  - apply Forall_cons_2; [unfold is_byte, IR_TX_CMD; lia|].
    apply Forall_cons_2; [exact Hf|].
    apply Forall_cons_2; [exact Hhalf|]. apply Forall_nil_2.
  - apply Forall_app. split; [exact Hbuf|].
    apply Forall_cons_2; [unfold is_byte; lia|].
    apply Forall_cons_2; [unfold is_byte, FIN_CONF; lia|]. apply Forall_nil_2.
Qed.

(** With a frequency and a word count that are not zero the template has
    no wildcard: the echo is accepted exactly when the response starts
    with the four bytes of the template. *)
Lemma tx_echo_accepted_iff (frequency : Q) (f : Z) (signalDurations : list Z)
    (values : list Z) :
  (frequency == inject_Z f)%Q -> f <> 0 ->
  Z.of_nat (length signalDurations) mod 2 = 0 ->
  2 <= Z.of_nat (length signalDurations) ->
  _validateResponse values (tx_echo frequency signalDurations) = true <->
  take 4 values =
    [PACKET_CONF; IR_TX_CMD; f; Z.of_nat (length signalDurations) / 2].
Proof.
  intros Hq Hf Heven Hlen.
  pose proof (half_length_even _ Heven) as Hhalf.
  assert (Hpos : Z.of_nat (length signalDurations) / 2 <> 0).
  { pose proof (Z.div_mod (Z.of_nat (length signalDurations)) 2). lia. }
  assert (Hnz : no_zero_entry (tx_echo frequency signalDurations)).
  { intros i q Hi Hq0.
    destruct i as [|[|[|[|i]]]]; simpl in Hi; try discriminate Hi;
      injection Hi as <-.
    - discriminate Hq0.
    - discriminate Hq0.
    - rewrite Hq in Hq0. exact (Hf (proj1 (inject_Z_injective f 0) Hq0)).
    - rewrite Hhalf in Hq0.
      exact (Hpos (proj1 (inject_Z_injective _ 0) Hq0)). }
  split.
  - intros H. apply validate_sound in H; [|exact Hnz].
    destruct (H 0%nat _ eq_refl eq_refl) as (b0 & Hb0 & He0).
    destruct (H 1%nat _ eq_refl eq_refl) as (b1 & Hb1 & He1).
    destruct (H 2%nat _ eq_refl eq_refl) as (b2 & Hb2 & He2).
    destruct (H 3%nat _ eq_refl eq_refl) as (b3 & Hb3 & He3).
    unfold num, equals_byte in He0, He1, He2, He3.
    apply (proj1 (inject_Z_injective _ _)) in He0.
    apply (proj1 (inject_Z_injective _ _)) in He1.
    rewrite Hq in He2. apply (proj1 (inject_Z_injective _ _)) in He2.
    rewrite Hhalf in He3. apply (proj1 (inject_Z_injective _ _)) in He3.
    destruct values as [|v0 [|v1 [|v2 [|v3 tail]]]]; try discriminate.
    injection Hb0 as ->. injection Hb1 as ->.
    injection Hb2 as ->. injection Hb3 as ->.
    rewrite <- He0, <- He1, <- He2, <- He3. reflexivity.
  - intros H.
    destruct values as [|v0 [|v1 [|v2 [|v3 tail]]]]; try discriminate H.
    injection H as -> -> -> ->.
    apply validate_complete. intros i e Hi Hw.
    destruct i as [|[|[|[|i]]]]; simpl in Hi; try discriminate Hi;
      injection Hi as <-; (eexists; split; [reflexivity|]); simpl.
    + reflexivity.
    + reflexivity.
    + exact Hq.
    + exact Hhalf.
Qed.

(** C7 (as amended).  For a frequency that is an integer f with
    0 < f < 256 and a duration buffer of even length N <= 200, the frame
    is the command byte, f, N/2, the N duration bytes, a zero byte and
    the terminator: 3 + N + 2 values in all, every one of them a byte.
    The echo template is 0x55, IR_TX_CMD, f, N/2; [sendRawSignal]
    transfers that frame and calls back once, and when N is at least 2
    it reports success exactly when the response starts with these four
    bytes, and an invalid response otherwise. *)
Theorem tx_frame_layout (frequency : Q) (f : Z) (signalDurations : list Z) :
  (frequency == inject_Z f)%Q ->
  0 < f < 256 ->
  is_buffer signalDurations ->
  Z.of_nat (length signalDurations) <= MAX_SIGNAL_DURATION ->
  Z.of_nat (length signalDurations) mod 2 = 0 ->
  let N := Z.of_nat (length signalDurations) in
  let frame := _constructTXPacket frequency signalDurations in
  frame = [IR_TX_CMD; f; N / 2] ++ signalDurations ++ [0; FIN_CONF] /\
  is_buffer frame /\
  Z.of_nat (length frame) = 3 + N + 2 /\
  Forall2 jsval_equiv (tx_echo frequency signalDurations)
    [num PACKET_CONF; num IR_TX_CMD; num f; num (N / 2)] /\
  (forall d values rest, exists err,
     sendRawSignal frequency signalDurations true (idle d)
       (Received values :: rest) =
     mkRun
       [Transfer ([IR_TX_CMD; f; N / 2] ++ signalDurations ++ [0; FIN_CONF]);
        Callback err]
       (set_transmitting false (set_transmitting true d)) Idle) /\
  (2 <= N ->
   forall d values rest,
     sendRawSignal frequency signalDurations true (idle d)
       (Received values :: rest) =
     mkRun
       [Transfer ([IR_TX_CMD; f; N / 2] ++ signalDurations ++ [0; FIN_CONF]);
        Callback
          (if decide (take 4 values = [PACKET_CONF; IR_TX_CMD; f; N / 2])
           then None else Some EInvalidTxResponse)]
       (set_transmitting false (set_transmitting true d)) Idle).
Proof.
  intros Hq Hf Hbuf Hlen Heven N frame.
  assert (Hframe : frame = [IR_TX_CMD; f; N / 2]
                             ++ signalDurations ++ [0; FIN_CONF]).
  { unfold frame. rewrite constructTXPacket_layout by assumption.
    rewrite (integer_frequency_byte frequency f) by (assumption || lia).
    reflexivity. }
  assert (Hpos : (0 < frequency)%Q)
    by (apply (integer_frequency_positive frequency f); (assumption || lia)).
  split; [exact Hframe|]. split; [|split; [|split; [|split]]].
  - rewrite Hframe. apply frame_bytes; (assumption || lia).
  - rewrite Hframe. simpl. rewrite length_app. simpl. unfold N. lia.
  - unfold tx_echo, num. repeat constructor; simpl; try reflexivity.
    + exact Hq.
    + apply half_length_even. exact Heven.
  - intros d values rest. rewrite sendRawSignal_accepted by assumption.
    fold frame. rewrite Hframe. eexists. reflexivity.
  - intros HN d values rest. rewrite sendRawSignal_accepted by assumption.
    fold frame. rewrite Hframe.
    pose proof (tx_echo_accepted_iff frequency f signalDurations values
                  Hq ltac:(lia) Heven HN) as Hiff.
    fold N in Hiff.
    destruct (decide (take 4 values = [PACKET_CONF; IR_TX_CMD; f; N / 2]))
      as [Hyes|Hno].
    + rewrite (proj2 Hiff Hyes). reflexivity.
    + destruct (_validateResponse values (tx_echo frequency signalDurations))
        eqn:Hv; [|reflexivity].
      exfalso. apply Hno, Hiff. reflexivity.
Qed.

Lemma tx_frame_layout_witness :
  _constructTXPacket 38 [1; 2; 3; 4] = [2; 38; 2; 1; 2; 3; 4; 0; 22] /\
  events (sendRawSignal 38 [1; 2; 3; 4] true (idle new_device)
            [Received [0x55; 2; 38; 2; 0; 0; 0; 0; 0]]) =
    [Transfer [2; 38; 2; 1; 2; 3; 4; 0; 22]; Callback None] /\
  events (sendRawSignal 38 [1; 2; 3; 4] true (idle new_device)
            [Received [0x55; 2; 38; 3; 0; 0; 0; 0; 0]]) =
    [Transfer [2; 38; 2; 1; 2; 3; 4; 0; 22];
     Callback (Some EInvalidTxResponse)].
Proof.
  assert (Hbuf : is_buffer [1; 2; 3; 4])
    by (repeat constructor; unfold is_byte; lia).
  destruct (tx_frame_layout 38 38 [1; 2; 3; 4]) as (H1 & _ & _ & _ & _ & H5);
    [reflexivity | lia | exact Hbuf | vm_compute; discriminate | reflexivity |].
  split; [exact H1|].
  assert (HN : 2 <= Z.of_nat (length [1; 2; 3; 4])) by (simpl; lia).
  split.
  - now rewrite (H5 HN new_device [0x55; 2; 38; 2; 0; 0; 0; 0; 0] []).
  - now rewrite (H5 HN new_device [0x55; 2; 38; 3; 0; 0; 0; 0; 0] []).
Defined.

(** C7 (counterexamples).  The frequency 300 passes the check and goes
    out as the byte 44, while the template keeps the number 300: the
    response that echoes the frame byte for byte is reported as invalid.
    With an empty duration buffer the word count 0 of the template is
    skipped, and a response whose word count is 99 is reported as a
    success. *)
Lemma tx_frame_wraps_frequency :
  _constructTXPacket 300 [1; 2] = [2; 44; 1; 1; 2; 0; 22] /\
  tx_echo 300 [1; 2] !! 2%nat = Some (num 300) /\
  events (sendRawSignal 300 [1; 2] true (idle new_device)
            [Received [PACKET_CONF; IR_TX_CMD; 44; 1; 0; 0; 0]]) =
    [Transfer [2; 44; 1; 1; 2; 0; 22]; Callback (Some EInvalidTxResponse)] /\
  events (sendRawSignal 38 [] true (idle new_device)
            [Received [PACKET_CONF; IR_TX_CMD; 38; 99; 0]]) =
    [Transfer [2; 38; 0; 0; 22]; Callback None].
Proof. repeat split; reflexivity. Qed.

(** The first two checks reject before anything else happens. *)
Lemma sendRawSignal_rejects_frequency (frequency : Q)
    (signalDurations : list Z) (d : device) (script : list outcome) :
  (frequency <= 0)%Q ->
  sendRawSignal frequency signalDurations true (idle d) script =
  mkRun [Callback (Some EInvalidFrequency)] d Idle.
Proof.
  intros Hf. unfold sendRawSignal.
  rewrite (proj2 (Qle_bool_iff frequency 0) Hf). now destruct d.
Qed.

Lemma sendRawSignal_rejects_long (frequency : Q) (signalDurations : list Z)
    (d : device) (script : list outcome) :
  (0 < frequency)%Q ->
  MAX_SIGNAL_DURATION < Z.of_nat (length signalDurations) ->
  sendRawSignal frequency signalDurations true (idle d) script =
  mkRun [Callback (Some EInvalidBufferLength)] d Idle.
Proof.
  intros Hf Hlen. unfold sendRawSignal.
  rewrite (positive_frequency frequency) by assumption.
  destruct (Z.ltb_spec MAX_SIGNAL_DURATION
              (Z.of_nat (length signalDurations))) as [_|?]; [|lia].
  now destruct d.
Qed.

(** An odd length reports the error and goes on: the flag is raised and
    the frame is transferred all the same. *)
Lemma sendRawSignal_odd_goes_on (frequency : Q) (signalDurations : list Z)
    (d : device) (script : list outcome) :
  (0 < frequency)%Q ->
  Z.of_nat (length signalDurations) <= MAX_SIGNAL_DURATION ->
  Z.of_nat (length signalDurations) mod 2 = 1 ->
  exists r,
    sendRawSignal frequency signalDurations true (idle d) script =
    log (Callback (Some EInvalidBufferSize))
      (log (Transfer (_constructTXPacket frequency signalDurations)) r).
Proof.
  intros Hf Hlen Hodd. unfold sendRawSignal.
  rewrite (positive_frequency frequency) by assumption.
  destruct (Z.ltb_spec MAX_SIGNAL_DURATION
              (Z.of_nat (length signalDurations))) as [?|_]; [lia|].
  rewrite Hodd. change (negb (1 =? 0)) with true. cbv iota beta.
  unfold user, emit, update, spi_transfer. eexists. reflexivity.
Qed.

(** C1 (code defect).  A one-byte duration buffer: the error callback
    fires, and then the transmitting flag is set and a frame is put on
    the bus; the branch for an odd length lacks the [return] of the two
    checks before it. *)
Theorem odd_buffer_is_transmitted :
  let r := sendRawSignal 38 [1] true (idle new_device) [] in
  events r = [Callback (Some EInvalidBufferSize); Transfer [2; 38; 0; 1; 0; 22]]
  /\ transmitting (final r) = true
  /\ halted r = Pending.
Proof. vm_compute. repeat split. Qed.

(** ** The RX fetcher and the interrupt handler *)

Arguments _validateResponse : simpl never.

(** The two slices keep what lies between the five leading bytes and the
    terminator: the end index of the second slice is beyond the end of
    the first slice's result and is clamped to it. *)
Lemma fetch_slices (header gap durations : list Z) (fin : Z) :
  length header = 3%nat -> length gap = 2%nat ->
  let response := header ++ gap ++ durations ++ [fin] in
  slice 2 (length response - 1)
    (slice 3 (length response - 1) response) = durations.
Proof.
  intros Hh Hg response. unfold slice, response.
  rewrite !length_app, Hh, Hg. simpl length.
  rewrite drop_app_length' by (symmetry; exact Hh).
  replace (3 + (2 + (length durations + 1)) - 1 - 3)%nat
    with (length (gap ++ durations)) by (rewrite length_app; lia).
  rewrite app_assoc, take_app_length.
  rewrite drop_app_length' by (symmetry; exact Hg).
  apply take_ge. lia.
Qed.

Lemma last_byte_app (l : list Z) (fin : Z) :
  (l ++ [fin]) !! (length (l ++ [fin]) - 1)%nat = Some fin.
Proof.
  rewrite length_app. simpl.
  replace (length l + 1 - 1)%nat with (length l + 0)%nat by lia.
  now rewrite lookup_app_r, Nat.add_comm, Nat.add_sub by lia.
Qed.

Section Fetch.

Variable globals : list string.
Variable d : device.
Hypothesis not_transmitting : transmitting d = false.

(** While a transmission is in progress the handler only sets its timer:
    this run arms no listener. *)
Lemma irq_deferred (d' : device) (script : list outcome) :
  transmitting d' = true ->
  _IRQHandler globals (idle d') script = mkRun [TimerSet 500] d' Idle.
Proof.
  intros Ht. unfold _IRQHandler, idle. simpl. rewrite Ht. now destruct d'.
Qed.

(** A failed availability validation ends the run: the callback that
    arms the listener again is never called. *)
Lemma irq_unavailable (avail : list Z) (rest : list outcome) :
  _validateResponse avail availability_template = false ->
  _IRQHandler globals (idle d) (Received avail :: rest) =
  mkRun [Transfer availability_request] d Idle.
Proof.
  intros Hv. unfold _IRQHandler, idle. simpl. rewrite not_transmitting.
  simpl. unfold _fetchRXDurations, spi_transfer, validating, end_turn.
  simpl. fold availability_template. rewrite Hv. now destruct d.
Qed.

(** X17.  A fetch whose last byte is not the terminator is dropped with
    a warning: two transfers, no data signal, and one listener armed
    for the next interrupt. *)
Lemma irq_out_of_frame (avail : list Z) (numInt16 : Z) (response : list Z)
    (rest : list outcome) :
  _validateResponse avail availability_template = true ->
  avail !! 3%nat = Some numInt16 ->
  response !! (length response - 1)%nat <> Some FIN_CONF ->
  _IRQHandler globals (idle d) (Received avail :: Received response :: rest) =
  mkRun [Transfer availability_request; Transfer (fetch_request numInt16);
         Warn; IrqOnce]
    (set_irq_high (S (irq_high d)) d) Idle.
Proof.
  intros Hv Hn Hfin. unfold _IRQHandler, idle. simpl. rewrite not_transmitting.
  simpl. unfold _fetchRXDurations, spi_transfer, validating, end_turn.
  simpl. fold availability_template. rewrite Hv, Hn. simpl.
  destruct (response !! (length response - 1)%nat) as [fin|] eqn:Hlast.
  - simpl. rewrite Qeq_bool_inject_Z.
    destruct (Z.eqb_spec FIN_CONF fin) as [<-|_]; [congruence|].
    reflexivity.
  - reflexivity.
Qed.

(** A well-formed response, on a host where [data] is bound: one data
    signal with the duration bytes, one listener armed. *)
Lemma irq_delivers (avail : list Z) (numInt16 : Z)
    (header gap durations : list Z) (rest : list outcome) :
  resolves globals "data" = true ->
  _validateResponse avail availability_template = true ->
  avail !! 3%nat = Some numInt16 ->
  length header = 3%nat -> length gap = 2%nat ->
  _IRQHandler globals (idle d)
    (Received avail :: Received (header ++ gap ++ durations ++ [FIN_CONF])
       :: rest) =
  mkRun [Transfer availability_request; Transfer (fetch_request numInt16);
         EmitData durations; IrqOnce]
    (set_irq_high (S (irq_high d)) d) Idle.
Proof.
  intros Hdata Hv Hn Hh Hg. unfold _IRQHandler, idle. simpl.
  rewrite not_transmitting.
  simpl. unfold _fetchRXDurations, spi_transfer, validating, end_turn.
  simpl. fold availability_template. rewrite Hv, Hn. simpl.
  pose proof (last_byte_app (header ++ gap ++ durations) FIN_CONF) as Hlast.
  rewrite <- !app_assoc in Hlast. rewrite Hlast. simpl.
  rewrite Hdata.
  pose proof (fetch_slices header gap durations FIN_CONF Hh Hg) as Hs.
  simpl in Hs. rewrite Hs. reflexivity.
Qed.

(** The same response where no scope binds [data]: line 189 throws
    before the signal is emitted and before the callback is called. *)
Lemma irq_throws (avail : list Z) (numInt16 : Z)
    (header gap durations : list Z) (rest : list outcome) :
  resolves globals "data" = false ->
  _validateResponse avail availability_template = true ->
  avail !! 3%nat = Some numInt16 ->
  _IRQHandler globals (idle d)
    (Received avail :: Received (header ++ gap ++ durations ++ [FIN_CONF])
       :: rest) =
  mkRun [Transfer availability_request; Transfer (fetch_request numInt16)]
    d (Thrown (ReferenceError "data")).
Proof.
  intros Hdata Hv Hn. unfold _IRQHandler, idle. simpl.
  rewrite not_transmitting.
  simpl. unfold _fetchRXDurations, spi_transfer, validating, end_turn.
  simpl. fold availability_template. rewrite Hv, Hn. simpl.
  pose proof (last_byte_app (header ++ gap ++ durations) FIN_CONF) as Hlast.
  rewrite <- !app_assoc in Hlast. rewrite Hlast. simpl.
  rewrite Hdata. now destruct d.
Qed.

End Fetch.

(** C2 (code defect).  A well-formed response (header echo, two gap
    bytes, four duration bytes, terminator) on Node: no scope binds the
    [data] that line 189 logs, so the callback throws a ReferenceError
    and no data signal is emitted. *)
Theorem well_formed_fetch_emits_nothing :
  let response := [IR_RX_CMD; 0; 0] ++ [9; 9] ++ [1; 2; 3; 4] ++ [FIN_CONF] in
  let r := _fetchRXDurations node_globals (Some (irq_once (stop Idle)))
             (idle new_device)
             [Received [PACKET_CONF; IR_RX_AVAIL_CMD; 1; 3]; Received response] in
  resolves node_globals "data" = false
  /\ events r = [Transfer [3; 0; 0; 0]; Transfer [4; 0; 0; 0; 0; 0; 0; 0; 0; 22]]
  /\ data_events (events r) = []
  /\ halted r = Thrown (ReferenceError "data").
Proof. vm_compute. repeat split. Qed.

(** C5 (code defect).  An availability response whose third byte is not
    1: the handler's run ends after the query with no listener armed,
    on any host. *)
Theorem unavailable_fetch_arms_nothing (globals : list string) :
  let r := _IRQHandler globals (idle new_device)
             [Received [PACKET_CONF; IR_RX_AVAIL_CMD; 0; 0]] in
  events r = [Transfer [3; 0; 0; 0]]
  /\ armed (events r) = 0%nat
  /\ irq_high (final r) = 0%nat
  /\ halted r = Idle.
Proof. vm_compute. repeat split. Qed.

(** ** Unfolding the recursive functions *)

Lemma readFirmwareCRC_eq (retries : Z) (callback : option error -> cont)
    (w : world) (script : list outcome) :
  readFirmwareCRC retries callback w script =
  spi_transfer crc_request (fun o =>
    match o with
    | Failed => callback (Some ETransfer)
    | Received res =>
        if crc_ok res then callback None
        else if 0 <? retries - 1 then readFirmwareCRC (retries - 1) callback
        else updateFirmware callback
    end) w script.
Proof.
  destruct script as [|[|res] rest]; try reflexivity.
  simpl. unfold spi_transfer, end_turn, crc_ok.
  destruct (flush (immediates w) (dev w)) as [es d'].
  destruct (_ && _); [reflexivity|].
  destruct (0 <? retries - 1); reflexivity.
Qed.

Lemma establishCommunication_eq (retries : Z)
    (callback : option error -> option Z -> cont)
    (w : world) (script : list outcome) :
  _establishCommunication retries callback w script =
  getFirmwareVersion (fun err version =>
    match err with
    | Some _ =>
        if retries - 1 =? 0 then callback (Some ECantConnect) None
        else _establishCommunication (retries - 1) callback
    | None => update (set_connected true) (callback None version)
    end) w script.
Proof.
  destruct script as [|[|response] rest]; try reflexivity;
    simpl; unfold getFirmwareVersion, spi_transfer, end_turn;
    destruct (flush (immediates w) (dev w)) as [es d'].
  - destruct (retries - 1 =? 0); reflexivity.
  - destruct (_ && _); [reflexivity|].
    destruct (retries - 1 =? 0); reflexivity.
Qed.

(** ** Invariants of a chain of callbacks

    A property [T] of runs that survives the logging of every event of
    a class [ok], and a property [okdev] of the device that the queued
    closures keep, carry over from the callbacks to the functions that
    call them. *)
Section TraceInvariant.

Variable ok : event -> Prop.
Variable okdev : device -> Prop.
Variable T : run -> Prop.

Hypothesis T_log : forall e r, ok e -> T r -> T (log e r).
Hypothesis T_halt : forall d h, okdev d -> T (mkRun [] d h).
Hypothesis ok_task : forall t d, Forall ok (fst (run_task t d)).
Hypothesis okdev_task : forall t d, okdev d -> okdev (snd (run_task t d)).

Local Abbreviation okay := (good okdev T).

Lemma T_logs (es : list event) (r : run) : Forall ok es -> T r -> T (logs es r).
Proof.
  induction 1 as [|e es He _ IH]; intros Hr.
  - destruct r; exact Hr.
  - apply (T_log e (logs es r) He (IH Hr)).
Qed.

Lemma flush_ok (ts : list task) :
  forall d, okdev d ->
    Forall ok (fst (flush ts d)) /\ okdev (snd (flush ts d)).
Proof.
  induction ts as [|t ts IH]; intros d Hd; simpl.
  - split; [constructor | exact Hd].
  - pose proof (ok_task t d) as Hev. pose proof (okdev_task t d Hd) as Hd'.
    destruct (run_task t d) as [es d']. simpl in Hev, Hd'.
    destruct (IH d' Hd') as [Hes Hd'']. destruct (flush ts d') as [es' d''].
    simpl in *. split; [apply Forall_app; split; assumption | exact Hd''].
Qed.

Lemma T_end_turn (w : world) (k : cont) (script : list outcome) :
  (forall w', okdev (dev w') -> T (k w' script)) ->
  okdev (dev w) -> T (end_turn w k script).
Proof.
  intros Hk Hw. unfold end_turn.
  destruct (flush_ok (immediates w) (dev w) Hw) as [Hes Hd].
  destruct (flush (immediates w) (dev w)) as [es d']. simpl in Hes, Hd.
  apply T_logs; [exact Hes|]. apply Hk. exact Hd.
Qed.

Lemma good_stop (h : halt) : okay (stop h).
Proof.
  intros w script Hw. unfold stop. destruct h; try apply T_end_turn;
    try exact Hw; try (intros w' Hw'); apply T_halt; assumption.
Qed.

Lemma good_emit (e : event) (k : cont) : ok e -> okay k -> okay (emit e k).
Proof. intros He Hk w script Hw. apply T_log; [exact He | now apply Hk]. Qed.

Lemma good_update (f : device -> device) (k : cont) :
  (forall d, okdev d -> okdev (f d)) -> okay k -> okay (update f k).
Proof. intros Hf Hk w script Hw. apply Hk. simpl. now apply Hf. Qed.

Lemma good_setImmediate (t : task) (k : cont) : okay k -> okay (setImmediate t k).
Proof. intros Hk w script Hw. apply Hk. exact Hw. Qed.

Lemma good_user (callback : bool) (err : option error) (k : cont) :
  ok (Callback err) -> okay k -> okay (user callback err k).
Proof.
  intros He Hk. unfold user. destruct callback; [now apply good_emit | exact Hk].
Qed.

Lemma T_spi_transfer (tx : list Z) (callback : outcome -> cont)
    (w : world) (script : list outcome) :
  ok (Transfer tx) ->
  (forall o rest w', script = o :: rest -> okdev (dev w') ->
     T (callback o w' rest)) ->
  okdev (dev w) -> T (spi_transfer tx callback w script).
Proof.
  intros Htx Hcb Hw. unfold spi_transfer. apply T_log; [exact Htx|].
  destruct script as [|o rest].
  - now apply good_stop.
  - apply T_end_turn; [|exact Hw]. intros w' Hw'. now apply Hcb.
Qed.

Lemma good_spi_transfer (tx : list Z) (callback : outcome -> cont) :
  ok (Transfer tx) -> (forall o, okay (callback o)) ->
  okay (spi_transfer tx callback).
Proof.
  intros Htx Hcb w script Hw. apply T_spi_transfer; [exact Htx| |exact Hw].
  intros o rest w' _ Hw'. now apply Hcb.
Qed.

Lemma good_validating (o : outcome) (expected : list jsval) (k : bool -> cont) :
  (forall b, okay (k b)) -> okay (validating o expected k).
Proof.
  intros Hk. unfold validating. destruct o as [|values]; [|apply Hk].
  destruct (validate_undefined expected); [apply Hk | apply good_stop].
Qed.

Lemma good_setTimeout (ms : Z) (f : cont) :
  ok (TimerSet ms) -> okay f -> okay (setTimeout ms f).
Proof.
  intros Hms Hf w script Hw. unfold setTimeout. apply T_log; [exact Hms|].
  apply T_end_turn; [|exact Hw]. intros w' Hw'. now apply Hf.
Qed.

Lemma good_firmware_update (done : cont) :
  ok Flash -> okay done -> okay (firmware_update done).
Proof.
  intros Hfl Hf w script Hw. unfold firmware_update. apply T_log; [exact Hfl|].
  apply T_end_turn; [|exact Hw]. intros w' Hw'. now apply Hf.
Qed.

Lemma good_readFirmwareCRC (callback : option error -> cont) :
  ok (Transfer crc_request) -> ok Flash -> ok (TimerSet 500) ->
  (forall err, okay (callback err)) ->
  forall retries, okay (readFirmwareCRC retries callback).
Proof.
  intros Htx Hfl Hms Hcb retries w script. revert retries w.
  induction script as [|o rest IH]; intros retries w Hw;
    rewrite readFirmwareCRC_eq;
    (apply T_spi_transfer; [exact Htx| |exact Hw]);
    intros o' rest' w' Heq Hw'; [discriminate Heq|].
  injection Heq as <- <-.
  destruct o as [|res]; [now apply Hcb|].
  destruct (crc_ok res); [now apply Hcb|].
  destruct (0 <? retries - 1); [now apply IH|].
  unfold updateFirmware, firmware_update, setTimeout.
  apply T_log; [exact Hfl|]. apply T_end_turn; [|exact Hw'].
  intros w'' Hw''. apply T_log; [exact Hms|].
  apply T_end_turn; [|exact Hw'']. intros w3 Hw3. now apply IH.
Qed.

Lemma good_updateFirmware (callback : option error -> cont) :
  ok (Transfer crc_request) -> ok Flash -> ok (TimerSet 500) ->
  (forall err, okay (callback err)) -> okay (updateFirmware callback).
Proof.
  intros Htx Hfl Hms Hcb. unfold updateFirmware.
  apply good_firmware_update; [exact Hfl|].
  apply good_setTimeout; [exact Hms|].
  now apply good_readFirmwareCRC.
Qed.

Lemma good_establishCommunication
    (callback : option error -> option Z -> cont) :
  ok (Transfer firmware_request) ->
  (forall d, okdev d -> okdev (set_connected true d)) ->
  (forall err version, okay (callback err version)) ->
  forall retries, okay (_establishCommunication retries callback).
Proof.
  intros Htx Hconn Hcb retries w script. revert retries w.
  induction script as [|o rest IH]; intros retries w Hw;
    rewrite establishCommunication_eq; unfold getFirmwareVersion;
    (apply T_spi_transfer; [exact Htx| |exact Hw]);
    intros o' rest' w' Heq Hw'; [discriminate Heq|].
  injection Heq as <- <-.
  assert (Hfail : T ((if retries - 1 =? 0
                      then callback (Some ECantConnect) None
                      else _establishCommunication (retries - 1) callback)
                       w' rest)).
  { destruct (retries - 1 =? 0); [now apply Hcb | now apply IH]. }
  destruct o as [|response]; [exact Hfail|].
  destruct (_ && _); [|exact Hfail].
  apply good_update; [exact Hconn | apply Hcb | exact Hw'].
Qed.

Lemma good_setListening (set : bool)
    (callback : option (option error -> cont)) :
  ok (Transfer (Buffer [inject_Z (if set then RX_START_CMD else RX_STOP_CMD);
                        0%Q; 0%Q])) ->
  ok IrqOnce -> ok IrqRemoveAll ->
  (forall b d, okdev d -> okdev (set_listening b d)) ->
  (forall n d, okdev d -> okdev (set_irq_high n d)) ->
  (forall k err, callback = Some k -> okay (k err)) ->
  okay (setListening set callback).
Proof.
  intros Htx Hon Hoff Hl Hi Hcb. unfold setListening.
  assert (Hreply : forall err,
             okay (match callback with Some k => k err | None => stop Idle end)).
  { intros err. destruct callback as [k|]; [now apply Hcb | apply good_stop]. }
  apply good_spi_transfer; [exact Htx|]. intros o.
  apply good_validating. intros valid.
  destruct (negb valid); [apply Hreply|].
  apply good_update; [apply Hl|]. intros w script Hw.
  destruct (negb (listening (dev w))).
  - unfold irq_removeAllListeners.
    apply good_emit; [exact Hoff| |exact Hw].
    apply good_update; [apply Hi | apply Hreply].
  - destruct (irq_high (dev w) =? 0)%nat; [|now apply Hreply].
    unfold irq_once. apply good_emit; [exact Hon| |exact Hw].
    apply good_update; [intros d' Hd'; now apply Hi | apply Hreply].
Qed.

Lemma good_afterUpdate (callback : bool) (err : option error) :
  ok (Transfer (Buffer [inject_Z RX_STOP_CMD; 0%Q; 0%Q])) ->
  ok IrqOnce -> ok IrqRemoveAll ->
  (forall e, ok (Callback e)) ->
  (forall b d, okdev d -> okdev (set_listening b d)) ->
  (forall n d, okdev d -> okdev (set_irq_high n d)) ->
  (forall d, okdev d -> okdev (set_connected true d)) ->
  okay (afterUpdate callback err).
Proof.
  intros Htx Hon Hoff Hcb Hl Hi Hc. unfold afterUpdate.
  destruct err as [e|].
  - unfold emitError. apply good_setImmediate, good_stop.
  - apply good_update; [exact Hc|]. apply good_setImmediate.
    apply good_setListening; try assumption.
    intros k err [= <-]. unfold listeningSet.
    apply good_user; [apply Hcb | apply good_stop].
Qed.

End TraceInvariant.

(** ** The handshake *)

Lemma establish_fails (retries : Z) (callback : option error -> option Z -> cont)
    (d : device) (o : outcome) (rest : list outcome) :
  version_query_fails o ->
  _establishCommunication retries callback (idle d) (o :: rest) =
  log (Transfer firmware_request)
    ((if retries - 1 =? 0 then callback (Some ECantConnect) None
      else _establishCommunication (retries - 1) callback) (idle d) rest).
Proof.
  intros Ho. rewrite establishCommunication_eq.
  unfold getFirmwareVersion, spi_transfer, end_turn, idle. simpl.
  destruct o as [|response]; [reflexivity|].
  simpl in Ho. unfold version_query_ok in Ho. now rewrite Ho.
Qed.

Lemma establish_succeeds (retries : Z)
    (callback : option error -> option Z -> cont)
    (d : device) (response : list Z) (rest : list outcome) :
  version_query_ok response = true ->
  _establishCommunication retries callback (idle d) (Received response :: rest) =
  log (Transfer firmware_request)
    (callback None (response !! 2%nat) (idle (set_connected true d)) rest).
Proof.
  intros Ho. rewrite establishCommunication_eq.
  unfold getFirmwareVersion, spi_transfer, end_turn, idle. simpl.
  unfold version_query_ok in Ho. now rewrite Ho.
Qed.

(** After the firmware check is entered, no second one follows and the
    connected flag stays set. *)
Lemma stays_connected_log (e : event) (r : run) :
  quiet e -> stays_connected r -> stays_connected (log e r).
Proof. intros He [Hr Hc]. split; [constructor; assumption | exact Hc]. Qed.

Lemma stays_connected_halt (d : device) (h : halt) :
  connected d = true -> stays_connected (mkRun [] d h).
Proof. intros Hd. split; [constructor | exact Hd]. Qed.

Lemma quiet_task (t : task) (d : device) : Forall quiet (fst (run_task t d)).
Proof. destruct t; repeat constructor. Qed.

Lemma connected_task (t : task) (d : device) :
  connected d = true -> connected (snd (run_task t d)) = true.
Proof. destruct t; intros Hd; exact Hd. Qed.

Lemma quiet_no_firmware_check (es : list event) :
  Forall quiet es -> List.filter is_firmware_check es = [].
Proof.
  induction 1 as [|e es He _ IH]; simpl; [reflexivity|].
  unfold quiet in He. now rewrite He.
Qed.

Lemma afterUpdate_stays_connected (callback : bool) (err : option error) :
  good (fun d => connected d = true) stays_connected (afterUpdate callback err).
Proof.
  apply (good_afterUpdate quiet _ stays_connected stays_connected_log
           stays_connected_halt quiet_task connected_task);
    try reflexivity; intros; assumption.
Qed.

Lemma after_firmware_check (callback : bool) (version : Z) :
  good (fun d => connected d = true) stays_connected
    (if version <? FIRMWARE_VERSION
     then updateFirmware (afterUpdate callback)
     else afterUpdate callback None).
Proof.
  destruct (version <? FIRMWARE_VERSION);
    [|apply afterUpdate_stays_connected].
  apply (good_updateFirmware quiet _ stays_connected stays_connected_log
           stays_connected_halt quiet_task connected_task);
    try reflexivity.
  apply afterUpdate_stays_connected.
Qed.

Lemma Infrared_eq (callback : bool) (d : device) (script : list outcome) :
  Infrared callback (idle d) script =
  _establishCommunication 3 (fun err version =>
    match err with
    | Some e => emitError e (stop Idle)
    | None => checkForFirmwareUpdate version (afterUpdate callback)
    end) (idle (set_listening false (set_transmitting false d))) script.
Proof. reflexivity. Qed.

(** One failed query of the handshake: the budget is decremented and
    tested. *)
Ltac failed_query :=
  rewrite establish_fails by assumption;
  match goal with
  | |- context [?n - 1 =? 0] =>
      let b := eval vm_compute in (n - 1 =? 0) in
      let m := eval vm_compute in (n - 1) in
      change (n - 1 =? 0) with b; change (n - 1) with m
  end;
  cbv iota.

(** C6.  With the budget of 3 the constructor starts with, three failed
    version queries end in one fatal error signal after exactly three
    queries, with the link not connected; failure, failure, success sets
    the connected flag and enters the firmware check exactly once. *)
Theorem handshake_budget (callback : bool) (o1 o2 o3 : outcome) (a v : Z)
    (rest : list outcome) :
  version_query_fails o1 -> version_query_fails o2 ->
  (version_query_fails o3 ->
   Infrared callback (idle new_device) (o1 :: o2 :: o3 :: rest) =
   mkRun [Transfer firmware_request; Transfer firmware_request;
          Transfer firmware_request; EmitError ECantConnect]
     new_device Idle)
  /\
  (let r := Infrared callback (idle new_device)
              (o1 :: o2 :: Received [a; FIRMWARE_CMD; v] :: rest) in
   take 4 (events r) =
     [Transfer firmware_request; Transfer firmware_request;
      Transfer firmware_request; FirmwareCheck (Some v)]
   /\ firmware_checks (events r) = 1%nat
   /\ connected (final r) = true).
Proof.
  intros H1 H2. rewrite !Infrared_eq. split.
  - intros H3. do 3 failed_query. reflexivity.
  - assert (Hok : version_query_ok [a; FIRMWARE_CMD; v] = true) by reflexivity.
    do 2 failed_query.
    rewrite establish_succeeds by exact Hok. simpl lookup.
    unfold checkForFirmwareUpdate, emit.
    destruct (after_firmware_check callback v
                (idle (set_connected true new_device)) rest eq_refl)
      as [Hev Hconn].
    simpl. split; [reflexivity|]. split; [|exact Hconn].
    unfold firmware_checks. simpl. f_equal.
    apply length_zero_iff_nil. exact (quiet_no_firmware_check _ Hev).
Qed.

Lemma handshake_budget_witness :
  Infrared true (idle new_device) [Failed; Received [0; 9; 2]; Failed; Failed] =
  mkRun [Transfer [1; 0; 0]; Transfer [1; 0; 0]; Transfer [1; 0; 0];
         EmitError ECantConnect] new_device Idle
  /\ firmware_checks
       (events (Infrared true (idle new_device)
                  [Failed; Received [0; 9; 2]; Received [0; 1; 2]; Failed]))
     = 1%nat.
Proof.
  destruct (handshake_budget true Failed (Received [0; 9; 2]) Failed 0 2 [Failed])
    as [Hfail Hok]; [exact I | reflexivity |].
  split; [exact (Hfail I) | exact (proj1 (proj2 Hok))].
Defined.

(** ** The constructor's RX_STOP *)

Lemma callbacks_app (l1 l2 : list event) :
  callbacks (l1 ++ l2) = (callbacks l1 + callbacks l2)%nat.
Proof. unfold callbacks. now rewrite List.filter_app, length_app. Qed.

Lemma rx_stops_app (l1 l2 : list event) :
  rx_stops (l1 ++ l2) = (rx_stops l1 + rx_stops l2)%nat.
Proof. unfold rx_stops. now rewrite List.filter_app, length_app. Qed.

Lemma clean_counts (es : list event) :
  Forall clean es -> callbacks es = 0%nat /\ rx_stops es = 0%nat.
Proof.
  unfold callbacks, rx_stops.
  induction 1 as [|e es [Hs Hc] _ [IHc IHs]]; simpl; [auto|].
  now rewrite Hs, Hc.
Qed.

Lemma ctor_shape_log (e : event) (r : run) :
  clean e -> ctor_shape r -> ctor_shape (log e r).
Proof.
  intros [Hs Hc] [H0 | (pre & e' & Hev & Hcb & Hst)].
  - left. simpl. unfold callbacks in *. simpl. now rewrite Hc.
  - right. exists (e :: pre), e'. simpl. rewrite Hev. split; [reflexivity|].
    unfold callbacks, rx_stops in *. simpl. now rewrite Hs, Hc.
Qed.

Lemma ctor_shape_halt (d : device) (h : halt) :
  True -> ctor_shape (mkRun [] d h).
Proof. intros _. now left. Qed.

Lemma clean_task (t : task) (d : device) : Forall clean (fst (run_task t d)).
Proof. destruct t; repeat constructor. Qed.

(** No condition on the device is needed for this invariant. *)
Lemma any_task (t : task) (d : device) : True -> True.
Proof. auto. Qed.

Lemma flush_clean (ts : list task) (d : device) :
  Forall clean (fst (flush ts d)).
Proof.
  apply (flush_ok clean (fun _ => True) clean_task any_task ts d I).
Qed.

(** [afterUpdate]: on an error nothing but the error signal follows; on
    success the RX_STOP goes out, the queued closures run, and the
    completion of the transfer calls [listeningSet]. *)
Lemma afterUpdate_shape (callback : bool) (err : option error) :
  good (fun _ => True) ctor_shape (afterUpdate callback err).
Proof.
  destruct err as [e|]; simpl.
  - unfold emitError.
    apply (good_setImmediate (fun _ => True) ctor_shape).
    apply (good_stop clean (fun _ => True) ctor_shape ctor_shape_log
             ctor_shape_halt clean_task any_task).
  - intros w script _.
    unfold update, setImmediate, setListening, spi_transfer. simpl.
    fold rx_stop_request.
    destruct script as [|o rest].
    + left. unfold stop, end_turn. simpl.
      pose proof (flush_clean (immediates w ++ [ReadyTask])
                    (set_connected true (dev w))) as Hfl.
      destruct (flush _ _) as [es d']. simpl in *.
      apply clean_counts in Hfl. destruct Hfl as [Hc _].
      change (callbacks (Transfer rx_stop_request :: es ++ []) = 0%nat).
      rewrite app_nil_r. exact Hc.
    + unfold end_turn. simpl.
      pose proof (flush_clean (immediates w ++ [ReadyTask])
                    (set_connected true (dev w))) as Hfl.
      destruct (flush _ _) as [es d']. simpl in Hfl.
      apply clean_counts in Hfl. destruct Hfl as [Hc Hs].
      assert (Hpre : forall mid, Forall clean mid ->
                callbacks (Transfer rx_stop_request :: es ++ mid) = 0%nat
                /\ rx_stops (Transfer rx_stop_request :: es ++ mid) = 1%nat).
      { intros mid Hmid. apply clean_counts in Hmid. destruct Hmid as [Hmc Hms].
        change (callbacks (es ++ mid) = 0%nat
                /\ S (rx_stops (es ++ mid)) = 1%nat).
        rewrite callbacks_app, rx_stops_app. lia. }
      destruct o as [|values]; simpl.
      * left. apply (Hpre []). constructor.
      * unfold listeningSet, user, update, irq_removeAllListeners, emit, stop,
          end_turn.
        destruct (_validateResponse values _); simpl;
          destruct callback; simpl.
        -- right. exists (Transfer rx_stop_request :: es ++ [IrqRemoveAll]),
             None. split; [simpl; now rewrite <- app_assoc|].
           apply Hpre. repeat constructor.
        -- left. apply (Hpre [IrqRemoveAll]). repeat constructor.
        -- right. exists (Transfer rx_stop_request :: es ++ []),
             (Some ERxOnOff). split; [simpl; now rewrite <- app_assoc|].
           apply Hpre. constructor.
        -- left. apply (Hpre []). constructor.
Qed.

Lemma Infrared_shape (callback : bool) (w : world) (script : list outcome) :
  ctor_shape (Infrared callback w script).
Proof.
  unfold Infrared.
  apply (good_update (fun _ => True) ctor_shape); [auto| |exact I].
  apply (good_establishCommunication clean (fun _ => True) ctor_shape
           ctor_shape_log ctor_shape_halt clean_task any_task);
    [split; reflexivity | auto |].
  intros err version. destruct err as [e|].
  - unfold emitError. apply (good_setImmediate (fun _ => True) ctor_shape).
    apply (good_stop clean (fun _ => True) ctor_shape ctor_shape_log
             ctor_shape_halt clean_task any_task).
  - unfold checkForFirmwareUpdate.
    apply (good_emit clean (fun _ => True) ctor_shape ctor_shape_log);
      [split; reflexivity|].
    assert (Hup : good (fun _ => True) ctor_shape
                    (updateFirmware (afterUpdate callback))).
    { apply (good_updateFirmware clean (fun _ => True) ctor_shape
               ctor_shape_log ctor_shape_halt clean_task any_task);
        try (split; reflexivity).
      apply afterUpdate_shape. }
    destruct version as [v|]; [|apply afterUpdate_shape].
    destruct (v <? FIRMWARE_VERSION); [exact Hup | apply afterUpdate_shape].
Qed.

(** Wherever the constructor's callback occurs in the trace of a
    construction, it is the last event, and exactly one RX_STOP transfer
    (and no earlier callback) precedes it. *)
Lemma callback_ends_construction (callback : bool) (d : device)
    (script : list outcome) (pre post : list event) (e : option error) :
  events (Infrared callback (idle d) script) = pre ++ Callback e :: post ->
  rx_stops pre = 1%nat /\ callbacks pre = 0%nat /\ post = [].
Proof.
  intros Hev.
  destruct (Infrared_shape callback (idle d) script)
    as [H0 | (pre' & e' & Hev' & Hcb & Hst)].
  - rewrite Hev, callbacks_app in H0. unfold callbacks in H0 at 2.
    simpl in H0. lia.
  - rewrite Hev in Hev'.
    induction post as [|x post' _] using rev_ind.
    + apply app_inj_tail in Hev' as [-> _]. auto.
    + change (pre ++ Callback e :: post' ++ [x])
        with (pre ++ (Callback e :: post') ++ [x]) in Hev'.
      rewrite app_assoc in Hev'. apply app_inj_tail in Hev' as [<- _].
      rewrite callbacks_app in Hcb. unfold callbacks in Hcb at 2.
      simpl in Hcb. lia.
Qed.

(** X22.  A construction whose first version query succeeds with a
    current firmware: one version query, the firmware check, the
    RX_STOP, then the ready signal and the interrupt listener, and the
    callback once the RX_STOP has completed.  An acknowledged RX_STOP
    removes the interrupt listener again, so the driver ends connected,
    not listening and with no listener armed; an RX_STOP that is not
    acknowledged is reported to the callback and leaves the listener. *)
Lemma construction_completes (a v : Z) (values : list Z) (rest : list outcome) :
  FIRMWARE_VERSION <= v ->
  let valid := _validateResponse values [num PACKET_CONF; num RX_STOP_CMD] in
  Infrared true (idle new_device)
    (Received [a; FIRMWARE_CMD; v] :: Received values :: rest) =
  mkRun
    ([Transfer firmware_request; FirmwareCheck (Some v);
      Transfer rx_stop_request; EmitReady; IrqOnce]
       ++ (if valid then [IrqRemoveAll; Callback None]
           else [Callback (Some ERxOnOff)]))
    (mkDevice false false true (if valid then 0 else 1) 0) Idle.
Proof.
  intros Hv valid. rewrite Infrared_eq.
  rewrite establish_succeeds by reflexivity. simpl lookup.
  unfold checkForFirmwareUpdate, emit.
  destruct (Z.ltb_spec v FIRMWARE_VERSION) as [?|_]; [lia|].
  unfold afterUpdate, update, setImmediate, setListening, spi_transfer,
    validating, end_turn. simpl.
  fold valid. destruct valid; reflexivity.
Qed.

(** ** CRC verification and reflash *)

Lemma updateFirmware_eq (callback : option error -> cont) (d : device)
    (script : list outcome) :
  updateFirmware callback (idle d) script =
  log Flash (log (TimerSet 500) (readFirmwareCRC 5 callback (idle d) script)).
Proof. reflexivity. Qed.

(** One mismatching answer: the budget is decremented; the query is
    repeated while it is positive, else [updateFirmware] is called. *)
Lemma readFirmwareCRC_mismatch (retries : Z) (callback : option error -> cont)
    (d : device) (o : outcome) (rest : list outcome) :
  crc_mismatch o ->
  readFirmwareCRC retries callback (idle d) (o :: rest) =
  log (Transfer crc_request)
    ((if 0 <? retries - 1 then readFirmwareCRC (retries - 1) callback
      else updateFirmware callback) (idle d) rest).
Proof.
  intros (res & -> & Hres). rewrite readFirmwareCRC_eq.
  unfold spi_transfer, end_turn, idle. simpl. now rewrite Hres.
Qed.

Lemma readFirmwareCRC_match (retries : Z) (callback : option error -> cont)
    (d : device) (res : list Z) (rest : list outcome) :
  crc_ok res = true ->
  readFirmwareCRC retries callback (idle d) (Received res :: rest) =
  log (Transfer crc_request) (callback None (idle d) rest).
Proof.
  intros Hres. rewrite readFirmwareCRC_eq.
  unfold spi_transfer, end_turn, idle. simpl. now rewrite Hres.
Qed.

(** With a positive budget, [retries] mismatches are answered by that
    many queries and then by the reflash, the settle delay and a fresh
    check with a budget of 5 on what follows. *)
Lemma crc_escalates (callback : option error -> cont) (d : device)
    (mismatches : list outcome) :
  forall (retries : Z) (rest : list outcome),
    Forall crc_mismatch mismatches ->
    0 < retries -> Z.of_nat (length mismatches) = retries ->
    events (readFirmwareCRC retries callback (idle d) (mismatches ++ rest)) =
    replicate (length mismatches) (Transfer crc_request)
      ++ Flash :: TimerSet 500
      :: events (readFirmwareCRC 5 callback (idle d) rest).
Proof.
  induction mismatches as [|o ms IH]; intros retries rest Hall Hpos Hlen.
  - simpl in Hlen. lia.
  - inversion Hall as [|o' ms' Ho Hms]; subst o' ms'.
    simpl app. rewrite readFirmwareCRC_mismatch by exact Ho.
    simpl length in *. simpl replicate.
    destruct (Z.ltb_spec 0 (retries - 1)) as [Hgt|Hle].
    + simpl. f_equal. apply IH; [exact Hms | exact Hgt | lia].
    + destruct ms as [|? ?]; [|simpl in Hlen; lia].
      rewrite updateFirmware_eq. reflexivity.
Qed.

(** The number of reflashes when every answer mismatches. *)
Lemma crc_flash_count (callback : option error -> cont) (d : device)
    (script : list outcome) :
  forall retries : Z,
    Forall crc_mismatch script -> 0 < retries ->
    Z.of_nat (flashes (events (readFirmwareCRC retries callback (idle d) script)))
    = if Z.of_nat (length script) <? retries then 0
      else 1 + (Z.of_nat (length script) - retries) / 5.
Proof.
  induction script as [|o rest IH]; intros retries Hall Hpos.
  - simpl length. destruct (Z.ltb_spec (Z.of_nat 0) retries); [reflexivity|lia].
  - inversion Hall as [|o' rest' Ho Hrest]; subst o' rest'.
    rewrite readFirmwareCRC_mismatch by exact Ho.
    change (flashes (events (log (Transfer crc_request) ?r)))
      with (flashes (events r)).
    simpl length. rewrite Nat2Z.inj_succ.
    destruct (Z.ltb_spec 0 (retries - 1)) as [Hgt|Hle].
    + rewrite IH by assumption.
      destruct (Z.ltb_spec (Z.of_nat (length rest)) (retries - 1));
        destruct (Z.ltb_spec (Z.succ (Z.of_nat (length rest))) retries);
        try lia.
      do 2 f_equal. lia.
    + rewrite updateFirmware_eq.
      change (flashes (events (log Flash (log (TimerSet 500) ?r))))
        with (S (flashes (events r))).
      rewrite Nat2Z.inj_succ, IH by (assumption || lia).
      assert (retries = 1) as -> by lia.
      destruct (Z.ltb_spec (Z.succ (Z.of_nat (length rest))) 1); [lia|].
      replace (Z.succ (Z.of_nat (length rest)) - 1)
        with (Z.of_nat (length rest)) by lia.
      destruct (Z.ltb_spec (Z.of_nat (length rest)) 5) as [Hlt|Hge].
      * rewrite Z.div_small by lia. reflexivity.
      * replace (Z.of_nat (length rest))
          with ((Z.of_nat (length rest) - 5) + 1 * 5) at 2 by lia.
        rewrite Z.div_add by lia. lia.
Qed.

Lemma crc_mismatch_zeros : crc_mismatch (Received [0; CRC_CMD; 0; 0]).
Proof. exists [0; CRC_CMD; 0; 0]. split; reflexivity. Qed.

(** C4 (as amended).  With a positive budget and answers that all
    mismatch, the budget's last mismatch triggers one reflash, the
    500 ms delay and a fresh check with a budget of 5; that check
    escalates in the same way, so that n >= retries mismatches have
    triggered 1 + (n - retries) / 5 reflashes; a matching answer right
    after the first reflash ends the chain with that one reflash. *)
Theorem crc_reflash_chain (callback : option error -> cont) (d : device)
    (retries : Z) (script : list outcome) :
  0 < retries ->
  Forall crc_mismatch script ->
  retries <= Z.of_nat (length script) ->
  let r := readFirmwareCRC retries callback (idle d) script in
  events r =
    replicate (Z.to_nat retries) (Transfer crc_request)
      ++ Flash :: TimerSet 500
      :: events (readFirmwareCRC 5 callback (idle d)
                   (drop (Z.to_nat retries) script))
  /\ Z.of_nat (flashes (events r))
     = 1 + (Z.of_nat (length script) - retries) / 5
  /\ (Z.of_nat (length script) = retries ->
      forall res, crc_ok res = true ->
        events (readFirmwareCRC retries (fun err => user true err (stop Idle))
                  (idle d) (script ++ [Received res])) =
        replicate (Z.to_nat retries) (Transfer crc_request)
          ++ [Flash; TimerSet 500; Transfer crc_request; Callback None]).
Proof.
  intros Hpos Hall Hlen r. split; [|split].
  - unfold r. rewrite <- (take_drop (Z.to_nat retries) script) at 1.
    assert (Htake : length (take (Z.to_nat retries) script) = Z.to_nat retries)
      by (rewrite length_take; lia).
    rewrite (crc_escalates callback d (take (Z.to_nat retries) script)
               retries (drop (Z.to_nat retries) script)).
    + now rewrite Htake.
    + apply Forall_take. exact Hall.
    + exact Hpos.
    + rewrite Htake. lia.
  - unfold r. rewrite crc_flash_count by assumption.
    destruct (Z.ltb_spec (Z.of_nat (length script)) retries); [lia|reflexivity].
  - intros Heq res Hres.
    rewrite (crc_escalates _ d script retries [Received res] Hall Hpos Heq).
    rewrite readFirmwareCRC_match by exact Hres.
    replace (length script) with (Z.to_nat retries) by lia. reflexivity.
Qed.

Lemma crc_reflash_chain_witness :
  Z.of_nat
    (flashes
       (events
          (readFirmwareCRC 5 (fun err => user true err (stop Idle))
             (idle new_device) (replicate 7 (Received [0; CRC_CMD; 0; 0])))))
  = 1 + (Z.of_nat 7 - 5) / 5.
Proof.
  refine (proj1 (proj2 (crc_reflash_chain
                          (fun err => user true err (stop Idle)) new_device 5
                          (replicate 7 (Received [0; CRC_CMD; 0; 0])) _ _ _))).
  - lia.
  - apply Forall_replicate. exact crc_mismatch_zeros.
  - simpl. lia.
Defined.

(** Ten mismatches with the budget of 5: the check after the first
    reflash runs out in its turn and a second reflash is triggered. *)
Lemma ten_mismatches_reflash_twice :
  let script := replicate 10 (Received [0; CRC_CMD; 0; 0]) in
  Forall crc_mismatch script
  /\ flashes
       (events (readFirmwareCRC 5 (fun err => user true err (stop Idle))
                  (idle new_device) script)) = 2%nat.
Proof.
  split.
  - apply Forall_replicate. exact crc_mismatch_zeros.
  - vm_compute. reflexivity.
Qed.

(** ** Lazy listening *)

(** [setListening] has no test of the listening flag: every call puts
    its command on the bus, once. *)
Lemma setListening_transfers (set : bool) (d : device) (script : list outcome) :
  transfers (events (setListening set None (idle d) script)) =
  [Transfer (if set then rx_start_request else rx_stop_request)].
Proof.
  unfold setListening, spi_transfer, validating, end_turn, idle.
  destruct script as [|[|values] rest]; simpl.
  - now destruct set.
  - now destruct set.
  - destruct (_validateResponse values _); simpl; [|now destruct set].
    unfold update. simpl. destruct set; simpl; [|reflexivity].
    destruct (irq_high d =? 0)%nat; reflexivity.
Qed.

(** C8 (as amended).  The hooks test the number of data listeners:
    a subscription while one is registered issues nothing, the first
    one issues one RX_START; removing the last listener issues one
    RX_STOP, removing another one issues nothing.  [setListening] itself
    always issues its transfer, whatever the listening flag. *)
Theorem listening_follows_listener_count (d : device) (script : list outcome) :
  ((1 <= data_listeners d)%nat ->
   on_data (idle d) script =
   mkRun [] (set_data_listeners (S (data_listeners d)) d) Idle)
  /\ (data_listeners d = 0%nat ->
      transfers (events (on_data (idle d) script)) =
      [Transfer rx_start_request])
  /\ (data_listeners d = 1%nat ->
      transfers (events (removeListener_data (idle d) script)) =
      [Transfer rx_stop_request])
  /\ ((2 <= data_listeners d)%nat ->
      removeListener_data (idle d) script =
      mkRun [] (set_data_listeners (pred (data_listeners d)) d) Idle)
  /\ (forall set : bool,
        transfers (events (setListening set None (idle d) script)) =
        [Transfer (if set then rx_start_request else rx_stop_request)]).
Proof.
  split; [|split; [|split; [|split]]].
  - intros Hn. unfold on_data, update, idle. simpl.
    destruct (data_listeners d) as [|n]; [lia|]. reflexivity.
  - intros Hn. unfold on_data, update. simpl. rewrite Hn. simpl.
    apply (setListening_transfers true (set_data_listeners 1 d) script).
  - intros Hn. unfold removeListener_data, update. simpl. rewrite Hn. simpl.
    apply (setListening_transfers false (set_data_listeners 0 d) script).
  - intros Hn. unfold removeListener_data, update, idle. simpl.
    destruct (data_listeners d) as [|[|n]]; [lia|lia|]. reflexivity.
  - intros set. apply setListening_transfers.
Qed.

Lemma listening_follows_listener_count_witness :
  on_data (idle (mkDevice false true true 1 1)) [] =
  mkRun [] (mkDevice false true true 1 2) Idle
  /\ transfers (events (removeListener_data (idle (mkDevice false true true 1 1))
                          [Received [PACKET_CONF; RX_STOP_CMD; 0]])) =
     [Transfer [6; 0; 0]].
Proof.
  split.
  - refine (proj1 (listening_follows_listener_count
                     (mkDevice false true true 1 1) []) _).
    simpl. lia.
  - refine (proj1 (proj2 (proj2 (listening_follows_listener_count
                     (mkDevice false true true 1 1)
                     [Received [PACKET_CONF; RX_STOP_CMD; 0]]))) _).
    reflexivity.
Defined.

(** Redundant commands reach the bus: a stop while the driver is not
    listening (the call the constructor makes), a second start after a
    first one has been acknowledged, and, through the hooks, a start
    while the listening flag is still set because the stop before it
    was not acknowledged. *)
Lemma redundant_commands_are_transferred :
  let ack_stop := Received [PACKET_CONF; RX_STOP_CMD; 0] in
  let ack_start := Received [PACKET_CONF; RX_START_CMD; 0] in
  let stopped := setListening false None (idle new_device) [ack_stop] in
  let started := setListening true None (idle new_device) [ack_start] in
  let again := setListening true None (idle (final started)) [ack_start] in
  let subscribed := on_data (idle new_device) [ack_start] in
  let removed :=
    removeListener_data (idle (final subscribed)) [Received [0; 0; 0]] in
  let resubscribed := on_data (idle (final removed)) [ack_start] in
  listening new_device = false
  /\ events stopped = [Transfer [6; 0; 0]; IrqRemoveAll]
  /\ listening (final started) = true
  /\ events again = [Transfer [5; 0; 0]]
  /\ listening (final removed) = true
  /\ events resubscribed = [Transfer [5; 0; 0]].
Proof. vm_compute. repeat split. Qed.

(** ** timerAbstraction *)

(** Reading back the word [writeInt16BE] has written. *)
Lemma read_after_write (buffer : list Z) (value : Z) (offset : nat) :
  int16 value -> (offset + 2 <= length buffer)%nat ->
  exists buffer',
    writeInt16BE buffer value offset = Some buffer'
    /\ length buffer' = length buffer
    /\ readInt16BE buffer' offset = Some value
    /\ (forall p, p <> offset -> p <> S offset -> buffer' !! p = buffer !! p).
Proof.
  unfold int16. intros Hv Hlen. unfold writeInt16BE.
  destruct (Z.ltb_spec value (-0x8000)) as [?|_]; [lia|].
  destruct (Z.ltb_spec 0x7fff value) as [?|_]; [lia|].
  destruct (Nat.ltb_spec (length buffer) (offset + 2)) as [?|_]; [lia|].
  simpl. eexists. split; [reflexivity|].
  split; [now rewrite !length_insert|]. split.
  - unfold readInt16BE.
    rewrite list_lookup_insert_ne by lia.
    rewrite list_lookup_insert_eq by lia.
    rewrite list_lookup_insert_eq by (rewrite length_insert; lia).
    f_equal. set (u := value mod 65536).
    assert (Hu : u / 256 * 256 + u mod 256 = u)
      by (pose proof (Z.div_mod u 256); lia).
    assert (Hwrap : (0 <= value /\ u = value)
                    \/ (value < 0 /\ u = value + 65536)).
    { unfold u. destruct (Z.neg_nonneg_cases value) as [Hneg|Hnn].
      - right. split; [exact Hneg|].
        rewrite <- (Z.mod_add value 1 65536) by lia.
        apply Z.mod_small. lia.
      - left. split; [exact Hnn|]. apply Z.mod_small. lia. }
    rewrite Hu. destruct (Z.ltb_spec u 32768); lia.
  - intros p Hp Hp'. now rewrite !list_lookup_insert_ne by lia.
Qed.

Lemma readInt16BE_ext (b1 b2 : list Z) (offset : nat) :
  b1 !! offset = b2 !! offset -> b1 !! S offset = b2 !! S offset ->
  readInt16BE b1 offset = readInt16BE b2 offset.
Proof. unfold readInt16BE. now intros -> ->. Qed.

Lemma readInt16BE_inside (buffer : list Z) (offset : nat) :
  (offset + 2 <= length buffer)%nat ->
  exists raw, readInt16BE buffer offset = Some raw.
Proof.
  intros Hlen. unfold readInt16BE.
  destruct (lookup_lt_is_Some_2 buffer offset) as [hi ->]; [lia|].
  destruct (lookup_lt_is_Some_2 buffer (S offset)) as [lo ->]; [lia|].
  eexists. reflexivity.
Qed.

Lemma timer_loop_step (fuel i : nat) (buffer : list Z) :
  timer_loop (S fuel) i buffer =
  if (i <? length buffer)%nat then
    match readInt16BE buffer i with
    | None => (buffer, Some RangeError)
    | Some raw =>
        match writeInt16BE buffer (raw * 50) i with
        | None => (buffer, Some RangeError)
        | Some buffer' => timer_loop fuel (i + 2) buffer'
        end
    end
  else (buffer, None).
Proof. reflexivity. Qed.

(** The loop from word [k] on, for a buffer of [m] words whose words
    from [k] on all stay in range when multiplied by 50: the words
    below [k] are kept and the others are scaled. *)
Lemma timer_loop_scales (m : nat) :
  forall (fuel k : nat) (cur : list Z),
    length cur = (2 * m)%nat -> (m - k <= fuel)%nat ->
    (forall j raw, (k <= j)%nat ->
       readInt16BE cur (2 * j) = Some raw -> int16 (raw * 50)) ->
    exists bytes',
      timer_loop fuel (2 * k) cur = (bytes', None)
      /\ length bytes' = (2 * m)%nat
      /\ (forall p, (p < 2 * k)%nat -> bytes' !! p = cur !! p)
      /\ (forall j raw, (k <= j)%nat ->
            readInt16BE cur (2 * j) = Some raw ->
            readInt16BE bytes' (2 * j) = Some (raw * 50)).
Proof.
  induction fuel as [|fuel IH]; intros k cur Hlen Hfuel Hrange.
  - exists cur. split; [reflexivity|]. split; [exact Hlen|].
    split; [reflexivity|].
    intros j raw Hj Hraw. unfold readInt16BE in Hraw.
    rewrite (lookup_ge_None_2 cur (2 * j)) in Hraw by lia. discriminate Hraw.
  - rewrite timer_loop_step.
    destruct (Nat.ltb_spec (2 * k) (length cur)) as [Hlt|Hge].
    + destruct (readInt16BE_inside cur (2 * k)) as [raw Hraw]; [lia|].
      rewrite Hraw.
      destruct (read_after_write cur (raw * 50) (2 * k))
        as (cur' & Hwrite & Hlen' & Hread & Hother);
        [exact (Hrange k raw (Nat.le_refl k) Hraw) | lia |].
      rewrite Hwrite.
      replace (2 * k + 2)%nat with (2 * S k)%nat by lia.
      assert (Hsame : forall j, (S k <= j)%nat ->
                readInt16BE cur' (2 * j) = readInt16BE cur (2 * j)).
      { intros j Hj. apply readInt16BE_ext; apply Hother; lia. }
      destruct (IH (S k) cur') as (bytes' & Hloop & Hlen'' & Hkeep & Hscaled).
      * lia.
      * lia.
      * intros j raw' Hj Hraw'. rewrite Hsame in Hraw' by exact Hj.
        apply (Hrange j raw'); [lia | exact Hraw'].
      * exists bytes'. split; [exact Hloop|]. split; [exact Hlen''|]. split.
        -- intros p Hp. rewrite Hkeep by lia. apply Hother; lia.
        -- intros j raw' Hj Hraw'.
           destruct (decide (j = k)) as [->|Hne].
           ++ rewrite Hraw in Hraw'. injection Hraw' as <-.
              rewrite <- Hread. apply readInt16BE_ext; apply Hkeep; lia.
           ++ apply Hscaled; [lia|]. rewrite Hsame by lia. exact Hraw'.
    + exists cur. split; [reflexivity|]. split; [exact Hlen|].
      split; [reflexivity|].
      intros j raw Hj Hraw. unfold readInt16BE in Hraw.
      rewrite (lookup_ge_None_2 cur (2 * j)) in Hraw by lia. discriminate Hraw.
Qed.

(** C10 (as amended).  For a buffer of even length whose signed 16-bit
    words all stay in the signed 16-bit range when multiplied by 50,
    [timerAbstraction] returns the reference it was given, and the
    buffer it refers to has the same length and holds, at every offset
    2i, 50 times the word it held; no other buffer of the store
    changes. *)
Theorem timer_scales_words (store : gmap nat (list Z)) (buffer : nat)
    (bytes : list Z) :
  store !! buffer = Some bytes ->
  Nat.even (length bytes) = true ->
  (forall i raw, readInt16BE bytes (2 * i) = Some raw -> int16 (raw * 50)) ->
  exists bytes',
    timerAbstraction store buffer = (<[buffer := bytes']> store, Normal buffer)
    /\ length bytes' = length bytes
    /\ (forall i raw, readInt16BE bytes (2 * i) = Some raw ->
          readInt16BE bytes' (2 * i) = Some (raw * 50)).
Proof.
  intros Hstore Heven Hrange.
  apply Nat.even_spec in Heven. destruct Heven as [m Hm].
  destruct (timer_loop_scales m (length bytes) 0 bytes)
    as (bytes' & Hloop & Hlen & _ & Hscaled); [exact Hm | lia | |].
  { intros j raw _ Hraw. exact (Hrange j raw Hraw). }
  exists bytes'. unfold timerAbstraction. rewrite Hstore.
  change (2 * 0)%nat with 0%nat in Hloop. rewrite Hloop.
  split; [reflexivity|]. split; [lia|].
  intros i raw Hraw. apply Hscaled; [lia | exact Hraw].
Qed.

Lemma timer_scales_words_witness :
  exists bytes',
    timerAbstraction {[ 7%nat := [0; 12; 255; 253] ]} 7 =
      (<[7%nat := bytes']> {[ 7%nat := [0; 12; 255; 253] ]}, Normal 7%nat)
    /\ length bytes' = 4%nat
    /\ readInt16BE bytes' 0 = Some 600
    /\ readInt16BE bytes' 2 = Some (-150).
Proof.
  destruct (timer_scales_words {[ 7%nat := [0; 12; 255; 253] ]} 7
              [0; 12; 255; 253]) as (bytes' & Hrun & Hlen & Hwords).
  - reflexivity.
  - reflexivity.
  - intros [|[|i]] raw Hraw.
    + injection Hraw as <-. unfold int16. lia.
    + injection Hraw as <-. unfold int16. lia.
    + unfold readInt16BE in Hraw.
      rewrite (lookup_ge_None_2 _ (2 * S (S i))) in Hraw by (simpl; lia).
      discriminate Hraw.
  - exists bytes'. split; [exact Hrun|]. split; [exact Hlen|]. split.
    + exact (Hwords 0%nat 12 eq_refl).
    + exact (Hwords 1%nat (-3) eq_refl).
Defined.

(** A word of 1000 ticks: 50000 does not fit a signed 16-bit word, the
    write raises a RangeError and the buffer keeps the word 1000. *)
Lemma timer_overflows_on_1000_ticks :
  let store : gmap nat (list Z) := {[ 7%nat := [0x03; 0xE8] ]} in
  readInt16BE [0x03; 0xE8] 0 = Some 1000
  /\ snd (timerAbstraction store 7) = Abrupt RangeError
  /\ fst (timerAbstraction store 7) !! 7%nat = Some [0x03; 0xE8].
Proof. vm_compute. repeat split. Qed.

(** ** Successful constructions *)

Lemma ends_with_callback_log (e : event) (r : run) :
  ends_with_callback r -> ends_with_callback (log e r).
Proof.
  intros (pre & e' & Hev). exists (e :: pre), e'. simpl. now rewrite Hev.
Qed.

Lemma ends_with_callback_logs (es : list event) (r : run) :
  ends_with_callback r -> ends_with_callback (logs es r).
Proof.
  intros (pre & e' & Hev). exists (es ++ pre), e'. simpl.
  now rewrite Hev, app_assoc.
Qed.

(** Fewer than three failed queries, then a version answer: the
    handshake hands the version on. *)
Lemma handshake_succeeds (callback : option error -> option Z -> cont)
    (d : device) (fails : list outcome) (a v : Z) (rest : list outcome) :
  Forall version_query_fails fails -> (length fails < 3)%nat ->
  _establishCommunication 3 callback (idle d)
    (fails ++ Received [a; FIRMWARE_CMD; v] :: rest) =
  logs (replicate (S (length fails)) (Transfer firmware_request))
    (callback None (Some v) (idle (set_connected true d)) rest).
Proof.
  intros Hfails Hlen.
  assert (Hok : version_query_ok [a; FIRMWARE_CMD; v] = true) by reflexivity.
  destruct fails as [|f1 [|f2 [|f3 fails]]]; simpl in Hlen; try lia;
    repeat match goal with
           | H : Forall _ (_ :: _) |- _ =>
               let Hf := fresh "Hf" in
               apply Forall_cons in H; destruct H as [Hf H]
           end;
    simpl app; repeat failed_query;
    rewrite establish_succeeds by exact Hok;
    change ([a; FIRMWARE_CMD; v] !! 2%nat) with (Some v);
    destruct (callback None (Some v) (idle (set_connected true d)) rest);
    reflexivity.
Qed.

(** Mismatches and then a match: the check hands over to its callback
    after queries, reflashes and delays only. *)
Lemma crc_recovers (callback : option error -> cont) (d : device)
    (mismatches : list outcome) (res : list Z) (rest : list outcome) :
  Forall crc_mismatch mismatches -> crc_ok res = true ->
  forall retries, exists es,
    readFirmwareCRC retries callback (idle d)
      (mismatches ++ Received res :: rest) =
    logs es (callback None (idle d) rest).
Proof.
  intros Hall Hres. induction Hall as [|o ms Ho _ IH]; intros retries.
  - exists [Transfer crc_request]. simpl app.
    rewrite readFirmwareCRC_match by exact Hres. reflexivity.
  - simpl app. rewrite readFirmwareCRC_mismatch by exact Ho.
    destruct (0 <? retries - 1).
    + destruct (IH (retries - 1)) as [es ->].
      exists (Transfer crc_request :: es). reflexivity.
    + rewrite updateFirmware_eq. destruct (IH 5) as [es ->].
      exists (Transfer crc_request :: Flash :: TimerSet 500 :: es).
      reflexivity.
Qed.

(** Once the firmware check has passed, the RX_STOP goes out and its
    completion calls the caller's callback. *)
Lemma afterUpdate_calls_back (d : device) (values : list Z)
    (rest : list outcome) :
  ends_with_callback
    (afterUpdate true None (idle d) (Received values :: rest)).
Proof.
  unfold afterUpdate, update, setImmediate, setListening, spi_transfer,
    validating, end_turn. simpl.
  destruct (_validateResponse values _); simpl.
  - exists [Transfer rx_stop_request; EmitReady; IrqOnce; IrqRemoveAll], None.
    reflexivity.
  - exists [Transfer rx_stop_request; EmitReady; IrqOnce], (Some ERxOnOff).
    reflexivity.
Qed.

(** C9.  Every successful construction (the handshake succeeds within
    its budget, the firmware check completes without error, the RX_STOP
    transfer completes) ends with the call of the constructor's
    callback, and exactly one RX_STOP transfer and no other callback
    precede it, whatever the number of data listeners. *)
Theorem construction_sends_one_rx_stop (d : device) (script : list outcome) :
  successful_construction script ->
  exists pre e,
    events (Infrared true (idle d) script) = pre ++ [Callback e]
    /\ rx_stops pre = 1%nat /\ callbacks pre = 0%nat.
Proof.
  intros (fails & a & v & crc & values & rest & Hfails & Hlen & Hfw & ->).
  assert (Hend : ends_with_callback
                   (Infrared true (idle d)
                      (fails ++ Received [a; FIRMWARE_CMD; v]
                         :: crc ++ Received values :: rest))).
  { rewrite Infrared_eq, handshake_succeeds by assumption.
    apply ends_with_callback_logs.
    unfold checkForFirmwareUpdate, emit. apply ends_with_callback_log.
    destruct Hfw as [Hv | mismatches res Hv Hall Hres].
    - destruct (Z.ltb_spec v FIRMWARE_VERSION) as [?|_]; [lia|].
      apply afterUpdate_calls_back.
    - destruct (Z.ltb_spec v FIRMWARE_VERSION) as [_|?]; [|lia].
      rewrite updateFirmware_eq, <- app_assoc. simpl app.
      destruct (crc_recovers (afterUpdate true)
                  (set_connected true
                     (set_listening false (set_transmitting false d)))
                  mismatches res (Received values :: rest) Hall Hres 5)
        as [es ->].
      do 2 apply ends_with_callback_log. apply ends_with_callback_logs.
      apply afterUpdate_calls_back. }
  destruct Hend as (pre & e & Hev). exists pre, e.
  split; [exact Hev|].
  destruct (callback_ends_construction true d _ pre [] e Hev)
    as (Hst & Hcb & _).
  split; assumption.
Qed.

Lemma construction_sends_one_rx_stop_witness :
  exists pre e,
    events (Infrared true (idle new_device)
              [Failed; Received [0; 1; 1];
               Received [0; 6; 0; 0]; Received [0; 6; 0x79; 0xA8];
               Received [0x55; 6; 0]]) = pre ++ [Callback e]
    /\ rx_stops pre = 1%nat /\ callbacks pre = 0%nat.
Proof.
  apply construction_sends_one_rx_stop.
  exists [Failed], 0, 1,
    ([Received [0; 6; 0; 0]] ++ [Received [0; 6; 0x79; 0xA8]]),
    [0x55; 6; 0], [].
  split; [repeat constructor|]. split; [simpl; lia|].
  split; [|reflexivity].
  apply fw_reflashed.
  - reflexivity.
  - constructor; [|constructor]. exists [0; 6; 0; 0]. split; reflexivity.
  - reflexivity.
Defined.

(** * Further properties *)

(** ** _validateResponse, beyond the wildcard test *)

Lemma validate_wildcard_monotone_witness :
  _validateResponse [PACKET_CONF; RX_STOP_CMD; 0]
    (<[1%nat := JFalse]> [num PACKET_CONF; num RX_STOP_CMD]) = true.
Proof.
  apply (validate_wildcard_monotone [PACKET_CONF; RX_STOP_CMD; 0]
           [num PACKET_CONF; num RX_STOP_CMD] 1).
  reflexivity.
Defined.

(** X2.  For a template none of whose numbers is zero, the response is
    accepted exactly when every entry other than [false] equals the
    response byte at its position. *)
Theorem validate_iff_without_zero (values : list Z) (expected : list jsval) :
  no_zero_entry expected ->
  _validateResponse values expected = true <-> matches_template values expected.
Proof.
  intros Hnz. split; [now apply validate_sound | apply validate_complete].
Qed.

Lemma validate_iff_without_zero_witness :
  _validateResponse [PACKET_CONF; RX_STOP_CMD; 0]
    [num PACKET_CONF; num RX_STOP_CMD] = true <->
  matches_template [PACKET_CONF; RX_STOP_CMD; 0]
    [num PACKET_CONF; num RX_STOP_CMD].
Proof.
  apply validate_iff_without_zero.
  intros [|[|i]] q Hq; try discriminate Hq; injection Hq as <-; discriminate.
Defined.

(** X3.  A response that ends before the position of an entry the loop
    checks (one not loosely equal to [false]) is rejected: the missing
    byte reads as [undefined], which equals no number. *)
Theorem validate_rejects_short_response (values : list Z)
    (expected : list jsval) (i : nat) (e : jsval) :
  expected !! i = Some e -> loose_eq_false e = false ->
  (length values <= i)%nat ->
  _validateResponse values expected = false.
Proof.
  intros Hi He Hlen. apply not_true_is_false. intros Hv.
  pose proof (proj1 (validate_true_iff values expected) Hv i e Hi He) as Hneq.
  rewrite (lookup_ge_None_2 values i Hlen) in Hneq. discriminate Hneq.
Qed.

Lemma validate_rejects_short_response_witness :
  _validateResponse [PACKET_CONF; IR_RX_AVAIL_CMD] availability_template
  = false.
Proof.
  apply (validate_rejects_short_response _ _ 2%nat (num 1));
    [reflexivity | reflexivity | simpl; lia].
Defined.

(** X4.  Only the bytes under the template are looked at: bytes of the
    response beyond the template's length do not change the result. *)
Theorem validate_ignores_tail (values extra : list Z) (expected : list jsval) :
  (length expected <= length values)%nat ->
  _validateResponse (values ++ extra) expected
  = _validateResponse values expected.
Proof.
  intros Hlen. apply eq_true_iff_eq. rewrite !validate_true_iff.
  split; intros H i e Hi He; specialize (H i e Hi He);
    apply lookup_lt_Some in Hi;
    rewrite lookup_app_l in * by lia; exact H.
Qed.

Lemma validate_ignores_tail_witness :
  _validateResponse ([PACKET_CONF; RX_START_CMD] ++ [7; 7; 7])
    [num PACKET_CONF; num RX_START_CMD]
  = _validateResponse [PACKET_CONF; RX_START_CMD]
      [num PACKET_CONF; num RX_START_CMD].
Proof. apply validate_ignores_tail. simpl. lia. Defined.

(** ** getFirmwareVersion and the handshake, for any budget *)

Lemma logs_nil (r : run) : logs [] r = r.
Proof. now destruct r. Qed.

Lemma version_query_ok_iff (response : list Z) :
  version_query_ok response = true <->
  exists a v, response = [a; FIRMWARE_CMD; v].
Proof.
  unfold version_query_ok, _validateResponse. split.
  - intros H. apply andb_true_iff in H as [Hv Hlen].
    apply Nat.eqb_eq in Hlen.
    destruct response as [|a [|c [|v [|? ?]]]]; try discriminate Hlen.
    simpl in Hv. rewrite Qeq_bool_inject_Z in Hv.
    destruct (Z.eqb_spec FIRMWARE_CMD c) as [<-|]; [|discriminate Hv].
    now exists a, v.
  - intros (a & v & ->). reflexivity.
Qed.

(** X5.  [getFirmwareVersion] issues one transfer of 01 00 00 and never
    a second one.  It hands the third byte over as the version exactly
    when the response is three bytes long and its second byte echoes
    the command (the first byte is not looked at); a transport error is
    handed over as it is, and every other response is an error. *)
Theorem getFirmwareVersion_outcomes
    (callback : option error -> option Z -> cont) (d : device)
    (o : outcome) (rest : list outcome) :
  getFirmwareVersion callback (idle d) (o :: rest) =
  log (Transfer [1; 0; 0])
    (match o with
     | Failed => callback (Some ETransfer) None
     | Received [a; c; v] =>
         if c =? FIRMWARE_CMD then callback None (Some v)
         else callback (Some EFirmwareVersion) None
     | Received _ => callback (Some EFirmwareVersion) None
     end (idle d) rest).
Proof.
  unfold getFirmwareVersion, spi_transfer, end_turn, idle. simpl.
  destruct o as [|response]; [reflexivity|].
  fold (version_query_ok response).
  destruct (version_query_ok response) eqn:Hok.
  - apply version_query_ok_iff in Hok as (a & v & ->). reflexivity.
  - destruct response as [|a [|c [|v [|? ?]]]]; try reflexivity.
    destruct (Z.eqb_spec c FIRMWARE_CMD) as [->|]; [|reflexivity].
    discriminate Hok.
Qed.

(** X6.  With a positive budget [retries], that many failed queries end
    the handshake with the connection error after exactly [retries]
    transfers, the connected flag untouched; fewer failures followed by
    a version answer hand the version over after one transfer more and
    set the connected flag. *)
Theorem handshake_any_budget (callback : option error -> option Z -> cont)
    (d : device) (fails : list outcome) :
  forall (retries : Z) (rest : list outcome),
    0 < retries -> Forall version_query_fails fails ->
    (Z.of_nat (length fails) = retries ->
     _establishCommunication retries callback (idle d) (fails ++ rest) =
     logs (replicate (length fails) (Transfer firmware_request))
       (callback (Some ECantConnect) None (idle d) rest))
    /\ (Z.of_nat (length fails) < retries ->
        forall a v,
          _establishCommunication retries callback (idle d)
            (fails ++ Received [a; FIRMWARE_CMD; v] :: rest) =
          logs (replicate (S (length fails)) (Transfer firmware_request))
            (callback None (Some v) (idle (set_connected true d)) rest)).
Proof.
  induction fails as [|o fails IH]; intros retries rest Hpos Hall.
  - split; [simpl; lia|]. intros _ a v. simpl app.
    rewrite establish_succeeds by reflexivity.
    change ([a; FIRMWARE_CMD; v] !! 2%nat) with (Some v).
    now destruct (callback None (Some v) _ rest).
  - apply Forall_cons in Hall as [Ho Hall].
    simpl length. rewrite Nat2Z.inj_succ. simpl app. split.
    + intros Hlen. rewrite establish_fails by exact Ho.
      destruct (Z.eqb_spec (retries - 1) 0) as [Hz|Hnz].
      * destruct fails as [|? ?]; [|simpl in Hlen; lia].
        simpl. now destruct (callback (Some ECantConnect) None (idle d) rest).
      * destruct (IH (retries - 1) rest) as [IHfail _]; [lia|exact Hall|].
        rewrite IHfail by lia. reflexivity.
    + intros Hlen a v. rewrite establish_fails by exact Ho.
      destruct (Z.eqb_spec (retries - 1) 0) as [Hz|Hnz]; [lia|].
      destruct (IH (retries - 1) rest) as [_ IHok]; [lia|exact Hall|].
      rewrite IHok by lia. reflexivity.
Qed.

Lemma handshake_any_budget_witness :
  _establishCommunication 2
    (fun err _ => user true err (stop Idle)) (idle new_device)
    ([Failed; Received [0; 1]] ++ [Received [0; 1; 2]]) =
  logs (replicate 2 (Transfer firmware_request))
    (user true (Some ECantConnect) (stop Idle) (idle new_device)
       [Received [0; 1; 2]]).
Proof.
  refine (proj1 (handshake_any_budget _ new_device [Failed; Received [0; 1]]
                   2 [Received [0; 1; 2]] _ _) _).
  - lia.
  - repeat constructor.
  - reflexivity.
Defined.

(** X7.  A budget of zero or less is never used up: the decrement skips
    the value 0 the test waits for, so however many queries fail the
    handshake sends one more and never reports an error. *)
Theorem handshake_without_budget (callback : option error -> option Z -> cont)
    (d : device) (script : list outcome) :
  forall retries : Z,
    retries <= 0 -> Forall version_query_fails script ->
    _establishCommunication retries callback (idle d) script =
    mkRun (replicate (S (length script)) (Transfer firmware_request))
      d Pending.
Proof.
  induction script as [|o script IH]; intros retries Hneg Hall.
  - now destruct d.
  - apply Forall_cons in Hall as [Ho Hall].
    rewrite establish_fails by exact Ho.
    destruct (Z.eqb_spec (retries - 1) 0) as [?|_]; [lia|].
    rewrite IH by (lia || exact Hall). reflexivity.
Qed.

Lemma handshake_without_budget_witness :
  _establishCommunication 0 (fun err _ => user true err (stop Idle))
    (idle new_device) [Failed; Failed; Failed; Failed] =
  mkRun (replicate 5 (Transfer firmware_request)) new_device Pending.
Proof.
  apply (handshake_without_budget _ new_device [Failed; Failed; Failed; Failed]);
    [lia | repeat constructor].
Defined.

(** ** The firmware check and the CRC verification *)

Lemma crc_ok_iff (res : list Z) :
  crc_ok res = true <-> exists a, res = [a; CRC_CMD; CRC_HIGH; CRC_LOW].
Proof.
  unfold crc_ok, _validateResponse. split.
  - intros H. apply andb_true_iff in H as [Hv Hlen].
    apply Nat.eqb_eq in Hlen.
    destruct res as [|a [|c [|h [|l [|? ?]]]]]; try discriminate Hlen.
    simpl in Hv. rewrite !Qeq_bool_inject_Z in Hv.
    destruct (Z.eqb_spec CRC_CMD c) as [Hc|]; [|discriminate Hv].
    destruct (Z.eqb_spec CRC_HIGH h) as [Hh|]; [|discriminate Hv].
    destruct (Z.eqb_spec CRC_LOW l) as [Hl|]; [|discriminate Hv].
    exists a. congruence.
  - intros (a & ->). reflexivity.
Qed.

(** X8.  A reported version at or above the pinned one causes no
    reflash and no transfer: the callback is called at once.  An older
    one causes one reflash and the 500 ms delay before the CRC is
    queried with a budget of 5, and when the first CRC answer is the
    pinned one the callback reports success after that one query. *)
Theorem firmware_check_reflashes_older_only (version : Z) (d : device) :
  let check :=
    checkForFirmwareUpdate (Some version)
      (fun err => user true err (stop Idle)) (idle d) in
  (FIRMWARE_VERSION <= version ->
   forall script,
     check script = mkRun [FirmwareCheck (Some version); Callback None] d Idle)
  /\ (version < FIRMWARE_VERSION ->
      (forall script,
         check script =
         logs [FirmwareCheck (Some version); Flash; TimerSet 500]
           (readFirmwareCRC 5 (fun err => user true err (stop Idle))
              (idle d) script))
      /\ (forall a rest,
            check (Received [a; CRC_CMD; CRC_HIGH; CRC_LOW] :: rest) =
            mkRun [FirmwareCheck (Some version); Flash; TimerSet 500;
                   Transfer crc_request; Callback None] d Idle)).
Proof.
  intros check. unfold check, checkForFirmwareUpdate, emit. split.
  - intros Hv script.
    destruct (Z.ltb_spec version FIRMWARE_VERSION) as [?|_]; [lia|].
    now destruct d.
  - intros Hv.
    destruct (Z.ltb_spec version FIRMWARE_VERSION) as [_|?]; [|lia].
    split.
    + intros script. rewrite updateFirmware_eq.
      now destruct (readFirmwareCRC 5 _ (idle d) script).
    + intros a rest. rewrite updateFirmware_eq.
      rewrite readFirmwareCRC_match by reflexivity. now destruct d.
Qed.

Lemma firmware_check_reflashes_older_only_witness :
  checkForFirmwareUpdate (Some 2) (fun err => user true err (stop Idle))
    (idle new_device) [Failed] =
  mkRun [FirmwareCheck (Some 2); Callback None] new_device Idle
  /\ checkForFirmwareUpdate (Some 1) (fun err => user true err (stop Idle))
       (idle new_device) [Received [9; CRC_CMD; CRC_HIGH; CRC_LOW]] =
     mkRun [FirmwareCheck (Some 1); Flash; TimerSet 500;
            Transfer crc_request; Callback None] new_device Idle.
Proof.
  split.
  - refine (proj1 (firmware_check_reflashes_older_only 2 new_device) _ _).
    unfold FIRMWARE_VERSION. lia.
  - refine (proj2 (proj2 (firmware_check_reflashes_older_only 1 new_device)
                     _) _ _).
    unfold FIRMWARE_VERSION. lia.
Defined.

(** X9.  A CRC verification calls its callback exactly when an answer
    is the pinned CRC (without error) or a transfer fails (with the
    transport's error), after one query per answer received, whatever
    the budget and however many mismatches and reflashes came before;
    nothing but queries, reflashes and delays precedes the call. *)
Theorem crc_chain_ends (callback : option error -> cont) (d : device)
    (mismatches : list outcome) (o : outcome) (rest : list outcome) :
  Forall crc_mismatch mismatches ->
  o = Failed \/ (exists a, o = Received [a; CRC_CMD; CRC_HIGH; CRC_LOW]) ->
  forall retries, exists es,
    readFirmwareCRC retries callback (idle d) (mismatches ++ o :: rest) =
    logs es
      (callback (match o with Failed => Some ETransfer | _ => None end)
         (idle d) rest)
    /\ Forall crc_event es
    /\ length (transfers es) = S (length mismatches).
Proof.
  intros Hall Ho. induction Hall as [|m ms Hm _ IH]; intros retries.
  - exists [Transfer crc_request]. simpl app.
    split; [|split; [repeat constructor | reflexivity]].
    destruct Ho as [-> | (a & ->)].
    + rewrite readFirmwareCRC_eq. reflexivity.
    + rewrite readFirmwareCRC_match by reflexivity. reflexivity.
  - simpl app. rewrite readFirmwareCRC_mismatch by exact Hm.
    destruct (0 <? retries - 1).
    + destruct (IH (retries - 1)) as (es & -> & Hes & Hlen).
      exists (Transfer crc_request :: es).
      split; [reflexivity|]. split.
      * constructor; [now left | exact Hes].
      * simpl. now rewrite Hlen.
    + rewrite updateFirmware_eq. destruct (IH 5) as (es & -> & Hes & Hlen).
      exists (Transfer crc_request :: Flash :: TimerSet 500 :: es).
      split; [reflexivity|]. split.
      * constructor; [now left|]. constructor; [right; now left|].
        constructor; [right; now right | exact Hes].
      * simpl. now rewrite Hlen.
Qed.

Lemma crc_chain_ends_witness :
  exists es,
    readFirmwareCRC 1 (fun err => user true err (stop Idle)) (idle new_device)
      ([Received [0; 6; 0; 0]] ++ Failed :: []) =
    logs es (user true (Some ETransfer) (stop Idle) (idle new_device) [])
    /\ Forall crc_event es
    /\ length (transfers es) = 2%nat.
Proof.
  refine (crc_chain_ends (fun err => user true err (stop Idle)) new_device
            [Received [0; 6; 0; 0]] Failed [] _ _ 1).
  - constructor; [|constructor]. exists [0; 6; 0; 0]. split; reflexivity.
  - now left.
Defined.

(** X10.  A budget of one, of zero or below zero allows one query: the
    first mismatch already triggers the reflash, the delay and the
    check with a budget of 5. *)
Theorem crc_small_budget (callback : option error -> cont) (d : device)
    (retries : Z) (o : outcome) (rest : list outcome) :
  retries <= 1 -> crc_mismatch o ->
  readFirmwareCRC retries callback (idle d) (o :: rest) =
  logs [Transfer crc_request; Flash; TimerSet 500]
    (readFirmwareCRC 5 callback (idle d) rest).
Proof.
  intros Hr Ho. rewrite readFirmwareCRC_mismatch by exact Ho.
  destruct (Z.ltb_spec 0 (retries - 1)) as [?|_]; [lia|].
  rewrite updateFirmware_eq.
  now destruct (readFirmwareCRC 5 callback (idle d) rest).
Qed.

Lemma crc_small_budget_witness :
  readFirmwareCRC (-3) (fun err => user true err (stop Idle))
    (idle new_device) [Received [0; 6; 0; 0]] =
  logs [Transfer crc_request; Flash; TimerSet 500]
    (readFirmwareCRC 5 (fun err => user true err (stop Idle))
       (idle new_device) []).
Proof.
  apply crc_small_budget; [lia|].
  exists [0; 6; 0; 0]. split; reflexivity.
Defined.

(** ** setListening and the emitter hooks *)

Lemma acknowledged_iff (set : bool) (values : list Z) :
  let cmd := if set then RX_START_CMD else RX_STOP_CMD in
  _validateResponse values [num PACKET_CONF; num cmd] = true <->
  exists tail, values = PACKET_CONF :: cmd :: tail.
Proof.
  intros cmd. subst cmd. unfold _validateResponse.
  destruct set; split.
  - intros H. destruct values as [|a [|c tail]]; simpl in H;
      rewrite ?Qeq_bool_inject_Z in H.
    + discriminate H.
    + destruct (PACKET_CONF =? a); discriminate H.
    + destruct (Z.eqb_spec PACKET_CONF a) as [Ha|]; [|discriminate H].
      destruct (Z.eqb_spec RX_START_CMD c) as [Hc|]; [|discriminate H].
      exists tail. congruence.
  - intros (tail & ->). reflexivity.
  - intros H. destruct values as [|a [|c tail]]; simpl in H;
      rewrite ?Qeq_bool_inject_Z in H.
    + discriminate H.
    + destruct (PACKET_CONF =? a); discriminate H.
    + destruct (Z.eqb_spec PACKET_CONF a) as [Ha|]; [|discriminate H].
      destruct (Z.eqb_spec RX_STOP_CMD c) as [Hc|]; [|discriminate H].
      exists tail. congruence.
  - intros (tail & ->). reflexivity.
Qed.

(** X11.  [setListening] sends its command once.  When the response
    starts with 0x55 and the command, the listening flag takes the
    requested value; a stop removes every interrupt listener, a start
    arms one only when none is armed; then the callback is called
    without error.  Any other response changes nothing and is reported
    to the callback as an error. *)
Theorem setListening_acknowledgement (set callback : bool) (d : device)
    (values : list Z) (rest : list outcome) :
  let cmd := if set then RX_START_CMD else RX_STOP_CMD in
  let r := setListening set (Some (listeningSet callback)) (idle d)
             (Received values :: rest) in
  ((exists tail, values = PACKET_CONF :: cmd :: tail) ->
   r = mkRun
         ([Transfer [cmd; 0; 0]]
            ++ (if set then if (irq_high d =? 0)%nat then [IrqOnce] else []
                else [IrqRemoveAll])
            ++ (if callback then [Callback None] else []))
         (set_irq_high (if set then Nat.max 1 (irq_high d) else 0)
            (set_listening set d))
         Idle)
  /\ ((forall tail, values <> PACKET_CONF :: cmd :: tail) ->
      r = mkRun
            ([Transfer [cmd; 0; 0]]
               ++ (if callback then [Callback (Some ERxOnOff)] else []))
            d Idle).
Proof.
  intros cmd r.
  assert (Hr : r =
    log (Transfer [cmd; 0; 0])
      (if _validateResponse values [num PACKET_CONF; num cmd]
       then if set
            then if (irq_high d =? 0)%nat
                 then log IrqOnce
                        (listeningSet callback None
                           (idle (set_irq_high (S (irq_high d))
                                    (set_listening set d))) rest)
                 else listeningSet callback None
                        (idle (set_listening set d)) rest
            else log IrqRemoveAll
                   (listeningSet callback None
                      (idle (set_irq_high 0 (set_listening set d))) rest)
       else listeningSet callback (Some ERxOnOff) (idle d) rest)).
  { unfold r, cmd, setListening, spi_transfer, validating, end_turn, idle.
    destruct set; simpl;
      destruct (_validateResponse values _); simpl; try reflexivity.
    unfold update. simpl. destruct (irq_high d =? 0)%nat; reflexivity. }
  split.
  - intros Hack. apply (acknowledged_iff set values) in Hack.
    fold cmd in Hack. rewrite Hr, Hack.
    destruct set; [destruct (Nat.eqb_spec (irq_high d) 0) as [Hz|Hnz]|];
      destruct callback; destruct d as [t l c i n]; simpl in *; subst;
      try reflexivity;
      destruct i; [contradiction | reflexivity | contradiction | reflexivity].
  - intros Hnack.
    assert (Hv : _validateResponse values [num PACKET_CONF; num cmd] = false).
    { apply not_true_is_false. intros Hv.
      apply (acknowledged_iff set values) in Hv as (tail & Hv).
      exact (Hnack tail Hv). }
    rewrite Hr, Hv. destruct callback; destruct d; reflexivity.
Qed.

Lemma setListening_acknowledgement_witness :
  setListening true (Some (listeningSet true)) (idle new_device)
    [Received [PACKET_CONF; RX_START_CMD; 0]] =
  mkRun [Transfer [5; 0; 0]; IrqOnce; Callback None]
    (mkDevice false true false 1 0) Idle
  /\ setListening true (Some (listeningSet true)) (idle new_device)
       [Received [0; 0; 0]] =
     mkRun [Transfer [5; 0; 0]; Callback (Some ERxOnOff)] new_device Idle.
Proof.
  split.
  - refine (proj1 (setListening_acknowledgement true true new_device
                     [PACKET_CONF; RX_START_CMD; 0] []) _).
    now exists [0].
  - refine (proj2 (setListening_acknowledgement true true new_device
                     [0; 0; 0] []) _).
    intros tail H. discriminate H.
Defined.

(** X12.  Subscribing the first data listener and removing it again,
    each command acknowledged: one RX_START and one RX_STOP go out, the
    interrupt listener is armed and removed again, and the driver is
    back where it was, not listening. *)
Theorem listen_round_trip (d : device) (t1 t2 : list Z) :
  data_listeners d = 0%nat -> irq_high d = 0%nat ->
  let on := on_data (idle d) [Received (PACKET_CONF :: RX_START_CMD :: t1)] in
  let off := removeListener_data (idle (final on))
               [Received (PACKET_CONF :: RX_STOP_CMD :: t2)] in
  events on = [Transfer rx_start_request; IrqOnce]
  /\ final on =
     set_data_listeners 1 (set_irq_high 1 (set_listening true d))
  /\ events off = [Transfer rx_stop_request; IrqRemoveAll]
  /\ final off = set_listening false d.
Proof.
  intros Hn Hi on off. subst on off.
  destruct d as [t l c i n]. simpl in Hn, Hi. subst i n.
  repeat split; reflexivity.
Qed.

Lemma listen_round_trip_witness :
  final (removeListener_data
           (idle (final (on_data (idle new_device)
                           [Received (PACKET_CONF :: RX_START_CMD :: [0])])))
           [Received (PACKET_CONF :: RX_STOP_CMD :: [0])])
  = set_listening false new_device.
Proof.
  exact (proj2 (proj2 (proj2 (listen_round_trip new_device [0] [0]
                                eq_refl eq_refl)))).
Defined.

(** ** sendRawSignal: rejections, the odd length, the transmitting flag *)

(** X13.  A frequency of zero or less, and a buffer of more than 200
    bytes, are rejected before anything else happens: no transfer, the
    device untouched, and the error goes to the callback when there is
    one and nowhere when there is none.  The frequency is tested
    first. *)
Theorem sendRawSignal_rejects (frequency : Q) (signalDurations : list Z)
    (callback : bool) (d : device) (script : list outcome) :
  let r := sendRawSignal frequency signalDurations callback (idle d) script in
  ((frequency <= 0)%Q ->
   r = mkRun (if callback then [Callback (Some EInvalidFrequency)] else [])
         d Idle)
  /\ ((0 < frequency)%Q ->
      MAX_SIGNAL_DURATION < Z.of_nat (length signalDurations) ->
      r = mkRun
            (if callback then [Callback (Some EInvalidBufferLength)] else [])
            d Idle).
Proof.
  intros r. unfold r, sendRawSignal. split.
  - intros Hf. rewrite (proj2 (Qle_bool_iff frequency 0) Hf).
    destruct callback; now destruct d.
  - intros Hf Hlen. rewrite (positive_frequency frequency Hf).
    destruct (Z.ltb_spec MAX_SIGNAL_DURATION
                (Z.of_nat (length signalDurations))) as [_|?]; [|lia].
    destruct callback; now destruct d.
Qed.

Lemma sendRawSignal_rejects_witness :
  sendRawSignal 0 [1; 2] false (idle new_device) [Failed] =
  mkRun [] new_device Idle
  /\ sendRawSignal 38 (replicate 202 0) true (idle new_device) [Failed] =
     mkRun [Callback (Some EInvalidBufferLength)] new_device Idle.
Proof.
  split.
  - refine (proj1 (sendRawSignal_rejects 0 [1; 2] false new_device [Failed]) _).
    discriminate.
  - refine (proj2 (sendRawSignal_rejects 38 (replicate 202 0) true new_device
                     [Failed]) _ _).
    + reflexivity.
    + reflexivity.
Defined.

(** The echo template of an odd length asks for a half-integer word
    count, which no byte equals. *)
Lemma odd_echo_never_validates (frequency : Q) (signalDurations values : list Z) :
  Z.of_nat (length signalDurations) mod 2 = 1 ->
  _validateResponse values (tx_echo frequency signalDurations) = false.
Proof.
  intros Hodd. apply not_true_is_false. intros Hv.
  set (n := Z.of_nat (length signalDurations)) in *.
  assert (Hnz : loose_eq_false (JNum (inject_Z n / 2)) = false).
  { simpl. apply not_true_is_false. intros Hq. apply Qeq_bool_iff in Hq.
    revert Hq. unfold Qeq, Qdiv, Qmult, Qinv, inject_Z. simpl. intros Hq.
    assert (n = 0) as Hn by lia. rewrite Hn in Hodd. discriminate Hodd. }
  pose proof (proj1 (validate_true_iff values _) Hv 3%nat
                (JNum (inject_Z n / 2)) eq_refl Hnz) as Hneq.
  destruct (values !! 3%nat) as [b|]; [|discriminate Hneq].
  simpl in Hneq. apply negb_false_iff, Qeq_bool_iff in Hneq.
  revert Hneq. unfold Qeq, Qdiv, Qmult, Qinv, inject_Z. simpl. intros Hq.
  assert (n = 2 * b) as Hn by lia.
  rewrite Hn, Z.mul_comm, Z.mod_mul in Hodd by lia. discriminate Hodd.
Qed.

(** X14.  A buffer of odd length (at most 200 bytes) is reported to the
    callback twice: once as an invalid buffer size before the transfer,
    and once more as an invalid response when the transfer completes,
    whatever the peripheral answered, because the echo is validated
    against a half-integer word count. *)
Theorem sendRawSignal_odd_reports_twice (frequency : Q)
    (signalDurations : list Z) (d : device) (values : list Z)
    (rest : list outcome) :
  (0 < frequency)%Q ->
  Z.of_nat (length signalDurations) <= MAX_SIGNAL_DURATION ->
  Z.of_nat (length signalDurations) mod 2 = 1 ->
  sendRawSignal frequency signalDurations true (idle d)
    (Received values :: rest) =
  mkRun
    [Callback (Some EInvalidBufferSize);
     Transfer (_constructTXPacket frequency signalDurations);
     Callback (Some EInvalidTxResponse)]
    (set_transmitting false (set_transmitting true d)) Idle.
Proof.
  intros Hf Hlen Hodd. unfold sendRawSignal.
  rewrite (positive_frequency frequency Hf).
  destruct (Z.ltb_spec MAX_SIGNAL_DURATION
              (Z.of_nat (length signalDurations))) as [?|_]; [lia|].
  rewrite Hodd. change (negb (1 =? 0)) with true. cbv iota beta.
  unfold user, emit, update, spi_transfer, validating, end_turn, idle. simpl.
  rewrite (odd_echo_never_validates frequency signalDurations values Hodd).
  reflexivity.
Qed.

Lemma sendRawSignal_odd_reports_twice_witness :
  sendRawSignal 38 [1; 2; 3] true (idle new_device)
    [Received [PACKET_CONF; IR_TX_CMD; 38; 1]] =
  mkRun
    [Callback (Some EInvalidBufferSize);
     Transfer (_constructTXPacket 38 [1; 2; 3]);
     Callback (Some EInvalidTxResponse)]
    (set_transmitting false (set_transmitting true new_device)) Idle.
Proof.
  apply sendRawSignal_odd_reports_twice;
    [reflexivity | vm_compute; discriminate | reflexivity].
Defined.

(** X15.  While the transfer of an accepted request is outstanding the
    transmitting flag is set, and an interrupt that fires then issues
    no transfer and only sets its 500 ms timer; when the transfer has
    completed with a response the flag is clear again. *)
Theorem transmission_defers_interrupt (frequency : Q)
    (signalDurations : list Z) (callback : bool) (d : device)
    (globals : list string) :
  (0 < frequency)%Q ->
  Z.of_nat (length signalDurations) <= MAX_SIGNAL_DURATION ->
  Z.of_nat (length signalDurations) mod 2 = 0 ->
  let sent := sendRawSignal frequency signalDurations callback (idle d) [] in
  sent = mkRun [Transfer (_constructTXPacket frequency signalDurations)]
           (set_transmitting true d) Pending
  /\ (forall script,
        _IRQHandler globals (idle (final sent)) script =
        mkRun [TimerSet 500] (final sent) Idle)
  /\ (forall values rest,
        transmitting
          (final (sendRawSignal frequency signalDurations callback (idle d)
                    (Received values :: rest))) = false).
Proof.
  intros Hf Hlen Heven sent.
  assert (Hsent : sent =
            mkRun [Transfer (_constructTXPacket frequency signalDurations)]
              (set_transmitting true d) Pending).
  { unfold sent, sendRawSignal.
    rewrite (positive_frequency frequency Hf).
    destruct (Z.ltb_spec MAX_SIGNAL_DURATION
                (Z.of_nat (length signalDurations))) as [?|_]; [lia|].
    rewrite Heven. reflexivity. }
  split; [exact Hsent|]. split.
  - intros script. rewrite Hsent. now apply irq_deferred.
  - intros values rest. now rewrite sendRawSignal_accepted by assumption.
Qed.

Lemma transmission_defers_interrupt_witness :
  _IRQHandler node_globals
    (idle (final (sendRawSignal 38 [1; 2] true (idle new_device) [])))
    [Received [PACKET_CONF; IR_RX_AVAIL_CMD; 1; 1]] =
  mkRun [TimerSet 500]
    (final (sendRawSignal 38 [1; 2] true (idle new_device) [])) Idle.
Proof.
  refine (proj1 (proj2 (transmission_defers_interrupt 38 [1; 2] true new_device
                          node_globals _ _ _)) _).
  - reflexivity.
  - vm_compute. discriminate.
  - reflexivity.
Defined.

(** X16.  The functions that do not look at the transfer's error read
    the response all the same: when a transfer fails and hands over no
    buffer, [setListening], the interrupt handler's fetch and the
    completion of [sendRawSignal] throw a TypeError, and their callback
    is never called; [sendRawSignal] has cleared its flag before. *)
Theorem transfer_error_without_buffer (d : device) (rest : list outcome) :
  (forall set callback,
     setListening set callback (idle d) (Failed :: rest) =
     mkRun [Transfer [if set then RX_START_CMD else RX_STOP_CMD; 0; 0]]
       d (Thrown TypeError))
  /\ (forall globals callback,
        _fetchRXDurations globals callback (idle d) (Failed :: rest) =
        mkRun [Transfer availability_request] d (Thrown TypeError))
  /\ (forall globals callback numInt16,
        _fetchRXDurations globals callback (idle d)
          (Received [PACKET_CONF; IR_RX_AVAIL_CMD; 1; numInt16]
             :: Failed :: rest) =
        mkRun [Transfer availability_request;
               Transfer (fetch_request numInt16)] d (Thrown TypeError))
  /\ (forall frequency signalDurations,
        (0 < frequency)%Q ->
        Z.of_nat (length signalDurations) <= MAX_SIGNAL_DURATION ->
        Z.of_nat (length signalDurations) mod 2 = 0 ->
        sendRawSignal frequency signalDurations true (idle d)
          (Failed :: rest) =
        mkRun [Transfer (_constructTXPacket frequency signalDurations)]
          (set_transmitting false (set_transmitting true d))
          (Thrown TypeError)).
Proof.
  split; [|split; [|split]].
  - intros set callback. destruct set; now destruct d.
  - intros globals callback. now destruct d.
  - intros globals callback numInt16. now destruct d.
  - intros frequency signalDurations Hf Hlen Heven. unfold sendRawSignal.
    rewrite (positive_frequency frequency Hf).
    destruct (Z.ltb_spec MAX_SIGNAL_DURATION
                (Z.of_nat (length signalDurations))) as [?|_]; [lia|].
    rewrite Heven. reflexivity.
Qed.

Lemma transfer_error_without_buffer_witness :
  sendRawSignal 38 [1; 2] true (idle new_device) [Failed] =
  mkRun [Transfer (_constructTXPacket 38 [1; 2])]
    (set_transmitting false (set_transmitting true new_device))
    (Thrown TypeError).
Proof.
  refine (proj2 (proj2 (proj2 (transfer_error_without_buffer new_device [])))
            38%Q [1; 2] _ _ _).
  - reflexivity.
  - vm_compute. discriminate.
  - reflexivity.
Defined.

Lemma irq_out_of_frame_witness :
  _IRQHandler node_globals (idle new_device)
    [Received [PACKET_CONF; IR_RX_AVAIL_CMD; 1; 1];
     Received [IR_RX_CMD; 0; 0; 9; 9; 0]] =
  mkRun [Transfer availability_request; Transfer (fetch_request 1);
         Warn; IrqOnce]
    (set_irq_high 1 new_device) Idle.
Proof.
  refine (irq_out_of_frame node_globals new_device _
            [PACKET_CONF; IR_RX_AVAIL_CMD; 1; 1] 1
            [IR_RX_CMD; 0; 0; 9; 9; 0] [] _ _ _).
  - reflexivity.
  - reflexivity.
  - reflexivity.
  - discriminate.
Defined.

Lemma construction_completes_witness :
  Infrared true (idle new_device)
    [Received [0; FIRMWARE_CMD; 2]; Received [PACKET_CONF; RX_STOP_CMD; 0]] =
  mkRun [Transfer firmware_request; FirmwareCheck (Some 2);
         Transfer rx_stop_request; EmitReady; IrqOnce;
         IrqRemoveAll; Callback None]
    (mkDevice false false true 0 0) Idle.
Proof.
  refine (construction_completes 0 2 [PACKET_CONF; RX_STOP_CMD; 0] [] _).
  vm_compute. discriminate.
Defined.

(** ** The fetch of the interrupt handler *)

(** X18.  The two slices of the fetch keep the bytes from offset 5 up
    to the last byte, for a response of any length: the end index of
    the second slice lies beyond the first slice's result and only its
    clamping to that result counts. *)
Theorem fetch_slices_keep_payload (response : list Z) :
  slice 2 (length response - 1) (slice 3 (length response - 1) response)
  = take (length response - 6) (drop 5 response).
Proof.
  unfold slice. rewrite skipn_firstn_comm, drop_drop, take_take.
  f_equal. lia.
Qed.

(** X19.  On a host whose scopes bind [data], a response that ends in
    the terminator is delivered: one data signal, carrying the bytes
    from offset 5 up to the terminator, and then one listener armed. *)
Theorem fetch_emits_payload (globals : list string) (d : device)
    (avail : list Z) (numInt16 : Z) (response : list Z)
    (rest : list outcome) :
  resolves globals "data" = true ->
  transmitting d = false ->
  _validateResponse avail availability_template = true ->
  avail !! 3%nat = Some numInt16 ->
  response !! (length response - 1)%nat = Some FIN_CONF ->
  _IRQHandler globals (idle d)
    (Received avail :: Received response :: rest) =
  mkRun [Transfer availability_request; Transfer (fetch_request numInt16);
         EmitData (take (length response - 6) (drop 5 response)); IrqOnce]
    (set_irq_high (S (irq_high d)) d) Idle.
Proof.
  intros Hdata Ht Hv Hn Hfin.
  assert (Hs : slice 2 (length response - 1)
                 (slice 3 (length response - 1) response)
               = take (length response - 6) (drop 5 response)).
  { unfold slice. rewrite skipn_firstn_comm, drop_drop, take_take.
    f_equal. lia. }
  unfold _IRQHandler, idle. simpl. rewrite Ht. simpl.
  unfold _fetchRXDurations, spi_transfer, validating, end_turn. simpl.
  fold availability_template. rewrite Hv, Hn. simpl.
  rewrite Hfin. simpl. rewrite Hdata, Hs. reflexivity.
Qed.

Lemma fetch_emits_payload_witness :
  _IRQHandler ("data"%string :: node_globals) (idle new_device)
    [Received [PACKET_CONF; IR_RX_AVAIL_CMD; 1; 3];
     Received [IR_RX_CMD; 0; 0; 9; 9; 1; 2; 3; 4; FIN_CONF]] =
  mkRun [Transfer availability_request; Transfer (fetch_request 3);
         EmitData [1; 2; 3; 4]; IrqOnce]
    (set_irq_high 1 new_device) Idle.
Proof.
  refine (fetch_emits_payload ("data"%string :: node_globals) new_device
            [PACKET_CONF; IR_RX_AVAIL_CMD; 1; 3] 3
            [IR_RX_CMD; 0; 0; 9; 9; 1; 2; 3; 4; FIN_CONF] [] _ _ _ _ _);
    reflexivity.
Defined.

Lemma Buffer_zeros (k : nat) : Buffer (replicate k 0%Q) = replicate k 0.
Proof.
  induction k as [|k IH]; [reflexivity|].
  change (Buffer (replicate (S k) 0%Q))
    with (0 :: Buffer (replicate k 0%Q)).
  now rewrite IH.
Qed.

(** X20.  An interrupt that finds [numInt16] words pending issues two
    transfers and no more, whatever the answer to the second: the
    availability query 03 00 00 00 and a fetch frame of 04 00 00,
    2 * numInt16 zero bytes and the terminator. *)
Theorem interrupt_transfers (globals : list string) (d : device)
    (avail : list Z) (numInt16 : Z) (rest : list outcome) :
  transmitting d = false ->
  _validateResponse avail availability_template = true ->
  avail !! 3%nat = Some numInt16 ->
  transfers (events (_IRQHandler globals (idle d) (Received avail :: rest)))
  = [Transfer [3; 0; 0; 0];
     Transfer ([IR_RX_CMD; 0; 0]
                 ++ replicate (Z.to_nat (numInt16 * 2)) 0 ++ [FIN_CONF])].
Proof.
  intros Ht Hv Hn.
  assert (Hreq : fetch_request numInt16 =
                 [IR_RX_CMD; 0; 0]
                   ++ replicate (Z.to_nat (numInt16 * 2)) 0 ++ [FIN_CONF]).
  { unfold fetch_request, Buffer. rewrite !map_app.
    fold (Buffer (replicate (Z.to_nat (numInt16 * 2)) 0%Q)).
    rewrite Buffer_zeros, <- app_assoc. reflexivity. }
  rewrite <- Hreq.
  unfold _IRQHandler, idle. simpl. rewrite Ht. simpl.
  unfold _fetchRXDurations, spi_transfer, validating, end_turn. simpl.
  fold availability_template. rewrite Hv, Hn. simpl.
  destruct rest as [|[|response] rest]; try reflexivity.
  simpl. destruct (loose_neq _ _); [reflexivity|].
  destruct (resolves globals "data"); reflexivity.
Qed.

Lemma interrupt_transfers_witness :
  transfers
    (events (_IRQHandler node_globals (idle new_device)
               [Received [PACKET_CONF; IR_RX_AVAIL_CMD; 1; 2]; Failed]))
  = [Transfer [3; 0; 0; 0]; Transfer [4; 0; 0; 0; 0; 0; 0; 22]].
Proof.
  refine (interrupt_transfers node_globals new_device
            [PACKET_CONF; IR_RX_AVAIL_CMD; 1; 2] 2 [Failed] _ _ _);
    reflexivity.
Defined.

(** ** The constructor's callback *)

(** X21.  Whatever the peripheral answers and whatever is queued, the
    constructor calls its callback at most once. *)
Theorem constructor_calls_back_at_most_once (callback : bool) (w : world)
    (script : list outcome) :
  (callbacks (events (Infrared callback w script)) <= 1)%nat.
Proof.
  destruct (Infrared_shape callback w script)
    as [H0 | (pre & e & Hev & Hcb & _)].
  - rewrite H0. lia.
  - rewrite Hev, callbacks_app, Hcb.
    change (callbacks [Callback e]) with 1%nat. lia.
Qed.

(** ** timerAbstraction: when it completes *)

Lemma writeInt16BE_inv (buffer buffer' : list Z) (value : Z) (offset : nat) :
  writeInt16BE buffer value offset = Some buffer' ->
  int16 value /\ (offset + 2 <= length buffer)%nat.
Proof.
  unfold writeInt16BE, int16.
  destruct (Z.ltb_spec value (-0x8000)); [discriminate|].
  destruct (Z.ltb_spec 0x7fff value); [discriminate|].
  destruct (Nat.ltb_spec (length buffer) (offset + 2)); [discriminate|].
  intros _. lia.
Qed.

(** A loop that ends without an exception has found every word from
    [k] on in range, and the buffer's length even. *)
Lemma timer_loop_normal_inv :
  forall (fuel k : nat) (cur : list Z),
    (length cur <= 2 * k + 2 * fuel)%nat -> (2 * k <= length cur)%nat ->
    snd (timer_loop fuel (2 * k) cur) = None ->
    Nat.even (length cur) = true
    /\ (forall j raw, (k <= j)%nat ->
          readInt16BE cur (2 * j) = Some raw -> int16 (raw * 50)).
Proof.
  induction fuel as [|fuel IH]; intros k cur Hfuel Hk Hnone.
  - assert (Hlen : length cur = (2 * k)%nat) by lia. split.
    + rewrite Hlen. apply Nat.even_spec. now exists k.
    + intros j raw Hj Hraw. unfold readInt16BE in Hraw.
      rewrite (lookup_ge_None_2 cur (2 * j)) in Hraw by lia.
      discriminate Hraw.
  - rewrite timer_loop_step in Hnone.
    destruct (Nat.ltb_spec (2 * k) (length cur)) as [Hlt|Hge].
    + destruct (readInt16BE cur (2 * k)) as [raw|] eqn:Hraw;
        [|discriminate Hnone].
      destruct (writeInt16BE cur (raw * 50) (2 * k)) as [cur'|] eqn:Hwrite;
        [|discriminate Hnone].
      destruct (writeInt16BE_inv _ _ _ _ Hwrite) as [Hin Hoff].
      destruct (read_after_write cur (raw * 50) (2 * k) Hin Hoff)
        as (cur2 & Hwrite2 & Hlen' & _ & Hother).
      rewrite Hwrite in Hwrite2. injection Hwrite2 as <-.
      replace (2 * k + 2)%nat with (2 * S k)%nat in Hnone by lia.
      destruct (IH (S k) cur') as [Heven Hwords]; [lia | lia | exact Hnone |].
      split; [now rewrite <- Hlen'|].
      intros j raw' Hj Hraw'.
      destruct (decide (j = k)) as [->|Hne].
      * rewrite Hraw in Hraw'. injection Hraw' as <-. exact Hin.
      * apply (Hwords j raw'); [lia|]. rewrite <- Hraw'.
        apply readInt16BE_ext; apply Hother; lia.
    + assert (Hlen : length cur = (2 * k)%nat) by lia. split.
      * rewrite Hlen. apply Nat.even_spec. now exists k.
      * intros j raw Hj Hraw. unfold readInt16BE in Hraw.
        rewrite (lookup_ge_None_2 cur (2 * j)) in Hraw by lia.
        discriminate Hraw.
Qed.

(** X23.  [timerAbstraction] returns (its buffer) exactly when the
    buffer's length is even and every word stays a signed 16-bit word
    when multiplied by 50; for an odd length or a word beyond that
    range it raises an exception instead. *)
Theorem timer_completes_iff (store : gmap nat (list Z)) (buffer : nat)
    (bytes : list Z) :
  store !! buffer = Some bytes ->
  snd (timerAbstraction store buffer) = Normal buffer <->
  Nat.even (length bytes) = true /\ words_in_range bytes.
Proof.
  intros Hstore. unfold timerAbstraction. rewrite Hstore. split.
  - intros Hnormal.
    destruct (timer_loop_normal_inv (length bytes) 0 bytes) as [Heven Hwords].
    + lia.
    + lia.
    + change (2 * 0)%nat with 0%nat.
      destruct (timer_loop (length bytes) 0 bytes) as [bytes' [e|]];
        [discriminate Hnormal | reflexivity].
    + split; [exact Heven|]. intros i raw Hraw.
      apply (Hwords i raw); [lia | exact Hraw].
  - intros [Heven Hwords].
    apply Nat.even_spec in Heven. destruct Heven as [m Hm].
    destruct (timer_loop_scales m (length bytes) 0 bytes)
      as (bytes' & Hloop & _); [exact Hm | lia | |].
    { intros j raw _ Hraw. exact (Hwords j raw Hraw). }
    change (2 * 0)%nat with 0%nat in Hloop. now rewrite Hloop.
Qed.

Lemma timer_completes_iff_witness :
  snd (timerAbstraction {[ 7%nat := [0; 12; 1] ]} 7) = Normal 7%nat <->
  Nat.even (length [0; 12; 1]) = true /\ words_in_range [0; 12; 1].
Proof. apply timer_completes_iff. reflexivity. Defined.

Lemma writeInt16BE_overflow (buffer : list Z) (value : Z) (offset : nat) :
  ~ int16 value -> writeInt16BE buffer value offset = None.
Proof.
  unfold int16, writeInt16BE. intros Hv.
  destruct (Z.ltb_spec value (-0x8000)); [reflexivity|].
  destruct (Z.ltb_spec 0x7fff value); [reflexivity|]. lia.
Qed.

(** The loop from word [k] on, when word [bad] is the first one out of
    range: the words before it are scaled, and the loop stops there. *)
Lemma timer_loop_stops (m bad : nat) :
  forall (fuel k : nat) (cur : list Z) (raw : Z),
    length cur = (2 * m)%nat -> (m - k <= fuel)%nat ->
    (k <= bad)%nat ->
    readInt16BE cur (2 * bad) = Some raw -> ~ int16 (raw * 50) ->
    (forall j r, (k <= j < bad)%nat ->
       readInt16BE cur (2 * j) = Some r -> int16 (r * 50)) ->
    exists bytes',
      timer_loop fuel (2 * k) cur = (bytes', Some RangeError)
      /\ length bytes' = (2 * m)%nat
      /\ (forall p, (p < 2 * k)%nat -> bytes' !! p = cur !! p)
      /\ (forall j r, (k <= j < bad)%nat ->
            readInt16BE cur (2 * j) = Some r ->
            readInt16BE bytes' (2 * j) = Some (r * 50))
      /\ (forall p, (2 * bad <= p)%nat -> bytes' !! p = cur !! p).
Proof.
  induction fuel as [|fuel IH]; intros k cur raw Hlen Hfuel Hk Hbad Hover Hrange.
  - unfold readInt16BE in Hbad.
    rewrite (lookup_ge_None_2 cur (2 * bad)) in Hbad by lia.
    discriminate Hbad.
  - assert (Hin : (2 * bad + 2 <= length cur)%nat).
    { unfold readInt16BE in Hbad.
      destruct (cur !! (2 * bad)%nat) eqn:H0; [|discriminate Hbad].
      destruct (cur !! S (2 * bad)) eqn:H1; [|discriminate Hbad].
      apply lookup_lt_Some in H1. lia. }
    rewrite timer_loop_step.
    destruct (Nat.ltb_spec (2 * k) (length cur)) as [_|?]; [|lia].
    destruct (decide (k = bad)) as [->|Hne].
    + rewrite Hbad, (writeInt16BE_overflow cur (raw * 50) (2 * bad) Hover).
      exists cur. repeat split; try assumption; try reflexivity.
      intros j r Hj. lia.
    + destruct (readInt16BE_inside cur (2 * k)) as [rk Hrk]; [lia|].
      rewrite Hrk.
      destruct (read_after_write cur (rk * 50) (2 * k))
        as (cur' & Hwrite & Hlen' & Hread & Hother);
        [apply (Hrange k rk); [lia | exact Hrk] | lia |].
      rewrite Hwrite.
      replace (2 * k + 2)%nat with (2 * S k)%nat by lia.
      assert (Hsame : forall j, (S k <= j)%nat ->
                readInt16BE cur' (2 * j) = readInt16BE cur (2 * j)).
      { intros j Hj. apply readInt16BE_ext; apply Hother; lia. }
      destruct (IH (S k) cur' raw)
        as (bytes' & Hloop & Hlen'' & Hkeep & Hscaled & Hrest).
      * lia.
      * lia.
      * lia.
      * rewrite Hsame by lia. exact Hbad.
      * exact Hover.
      * intros j r Hj Hr. rewrite Hsame in Hr by lia.
        apply (Hrange j r); [lia | exact Hr].
      * exists bytes'. split; [exact Hloop|]. split; [exact Hlen''|].
        split; [|split].
        -- intros p Hp. rewrite Hkeep by lia. apply Hother; lia.
        -- intros j r Hj Hr.
           destruct (decide (j = k)) as [->|Hjk].
           ++ rewrite Hrk in Hr. injection Hr as <-.
              rewrite <- Hread. apply readInt16BE_ext; apply Hkeep; lia.
           ++ apply Hscaled; [lia|]. rewrite Hsame by lia. exact Hr.
        -- intros p Hp. rewrite Hrest by exact Hp. apply Hother; lia.
Qed.

(** X24.  The scaling is done in place and is not undone: when a word
    is the first whose 50-fold leaves the signed 16-bit range,
    [timerAbstraction] raises a RangeError there, the words before it
    stay multiplied by 50, and the bytes from that word on are as they
    were. *)
Theorem timer_stops_at_first_overflow (store : gmap nat (list Z))
    (buffer : nat) (bytes : list Z) (bad : nat) (raw : Z) :
  store !! buffer = Some bytes ->
  Nat.even (length bytes) = true ->
  readInt16BE bytes (2 * bad) = Some raw -> ~ int16 (raw * 50) ->
  (forall j r, (j < bad)%nat ->
     readInt16BE bytes (2 * j) = Some r -> int16 (r * 50)) ->
  exists bytes',
    timerAbstraction store buffer
    = (<[buffer := bytes']> store, Abrupt RangeError)
    /\ length bytes' = length bytes
    /\ (forall j r, (j < bad)%nat ->
          readInt16BE bytes (2 * j) = Some r ->
          readInt16BE bytes' (2 * j) = Some (r * 50))
    /\ (forall p, (2 * bad <= p)%nat -> bytes' !! p = bytes !! p).
Proof.
  intros Hstore Heven Hbad Hover Hrange.
  apply Nat.even_spec in Heven. destruct Heven as [m Hm].
  destruct (timer_loop_stops m bad (length bytes) 0 bytes raw)
    as (bytes' & Hloop & Hlen & _ & Hscaled & Hrest);
    [exact Hm | lia | lia | exact Hbad | exact Hover | |].
  { intros j r Hj Hr. apply (Hrange j r); [lia | exact Hr]. }
  exists bytes'. unfold timerAbstraction. rewrite Hstore.
  change (2 * 0)%nat with 0%nat in Hloop. rewrite Hloop.
  split; [reflexivity|]. split; [lia|]. split.
  - intros j r Hj Hr. apply Hscaled; [lia | exact Hr].
  - exact Hrest.
Qed.

Lemma timer_stops_at_first_overflow_witness :
  exists bytes',
    timerAbstraction {[ 7%nat := [0; 12; 3; 232; 0; 1] ]} 7
    = (<[7%nat := bytes']> {[ 7%nat := [0; 12; 3; 232; 0; 1] ]},
       Abrupt RangeError)
    /\ length bytes' = 6%nat
    /\ readInt16BE bytes' 0 = Some 600
    /\ bytes' !! 4%nat = Some 0 /\ bytes' !! 5%nat = Some 1.
Proof.
  destruct (timer_stops_at_first_overflow
              {[ 7%nat := [0; 12; 3; 232; 0; 1] ]} 7
              [0; 12; 3; 232; 0; 1] 1 1000)
    as (bytes' & Hrun & Hlen & Hscaled & Hrest).
  - reflexivity.
  - reflexivity.
  - reflexivity.
  - unfold int16. lia.
  - intros [|j] r Hj Hr; [|lia]. injection Hr as <-. unfold int16. lia.
  - exists bytes'. split; [exact Hrun|]. split; [exact Hlen|]. split.
    + exact (Hscaled 0%nat 12 ltac:(lia) eq_refl).
    + split; [exact (Hrest 4%nat ltac:(lia)) | exact (Hrest 5%nat ltac:(lia))].
Defined.

(** ** The constructor's signals *)

Lemma plain_signals (es : list event) (r : run) :
  Forall plain es ->
  signals (events (logs es r)) = signals (events r)
  /\ callbacks (events (logs es r)) = callbacks (events r).
Proof.
  unfold signals, callbacks.
  induction 1 as [|e es [Hs Hc] _ [IHs IHc]]; simpl; [auto|].
  simpl in IHs, IHc. now rewrite Hs, Hc, IHs, IHc.
Qed.

(** From a world with nothing queued, the handshake is a row of version
    queries that stays pending or ends in one call of its callback. *)
Lemma establish_run_shape (callback : option error -> option Z -> cont)
    (d : device) (script : list outcome) :
  forall retries, exists es,
    Forall plain es
    /\ (_establishCommunication retries callback (idle d) script
        = mkRun es d Pending
        \/ (exists rest, _establishCommunication retries callback (idle d) script
                         = logs es (callback (Some ECantConnect) None
                                      (idle d) rest))
        \/ (exists v rest, _establishCommunication retries callback (idle d)
                             script
                           = logs es (callback None v
                                        (idle (set_connected true d)) rest))).
Proof.
  induction script as [|o script IH]; intros retries.
  - exists [Transfer firmware_request]. split; [repeat constructor|].
    left. now destruct d.
  - assert (Hfail : version_query_fails o ->
      exists es, Forall plain es
        /\ (_establishCommunication retries callback (idle d) (o :: script)
            = mkRun es d Pending
            \/ (exists rest,
                  _establishCommunication retries callback (idle d)
                    (o :: script)
                  = logs es (callback (Some ECantConnect) None (idle d) rest))
            \/ (exists v rest,
                  _establishCommunication retries callback (idle d)
                    (o :: script)
                  = logs es (callback None v
                               (idle (set_connected true d)) rest)))).
    { intros Ho. rewrite establish_fails by exact Ho.
      destruct (retries - 1 =? 0).
      - exists [Transfer firmware_request]. split; [repeat constructor|].
        right. left. exists script.
        now destruct (callback (Some ECantConnect) None (idle d) script).
      - destruct (IH (retries - 1)) as (es & Hes & Hrun).
        exists (Transfer firmware_request :: es).
        split; [constructor; [split; reflexivity | exact Hes]|].
        destruct Hrun as [-> | [(rest & ->) | (v & rest & ->)]].
        + now left.
        + right. left. now exists rest.
        + right. right. now exists v, rest. }
    destruct o as [|response]; [exact (Hfail I)|].
    destruct (version_query_ok response) eqn:Hok; [|exact (Hfail Hok)].
    rewrite establish_succeeds by exact Hok.
    exists [Transfer firmware_request]. split; [repeat constructor|].
    right. right. exists (response !! 2%nat), script.
    now destruct (callback None _ (idle (set_connected true d)) script).
Qed.

(** Likewise the CRC verification: queries, reflashes and delays, and
    then nothing more or one call of its callback. *)
Lemma crc_run_shape (callback : option error -> cont) (d : device)
    (script : list outcome) :
  forall retries, exists es,
    Forall plain es
    /\ (readFirmwareCRC retries callback (idle d) script = mkRun es d Pending
        \/ exists err rest,
             readFirmwareCRC retries callback (idle d) script
             = logs es (callback err (idle d) rest)).
Proof.
  induction script as [|o script IH]; intros retries.
  - exists [Transfer crc_request]. split; [repeat constructor|].
    left. rewrite readFirmwareCRC_eq. now destruct d.
  - destruct o as [|res].
    + exists [Transfer crc_request]. split; [repeat constructor|].
      right. exists (Some ETransfer), script. rewrite readFirmwareCRC_eq.
      unfold spi_transfer, end_turn, idle. simpl.
      now destruct (callback (Some ETransfer) _ script).
    + destruct (crc_ok res) eqn:Hres.
      * exists [Transfer crc_request]. split; [repeat constructor|].
        right. exists None, script.
        rewrite readFirmwareCRC_match by exact Hres.
        now destruct (callback None (idle d) script).
      * rewrite readFirmwareCRC_mismatch
          by (exists res; split; [reflexivity | exact Hres]).
        destruct (0 <? retries - 1).
        -- destruct (IH (retries - 1)) as (es & Hes & Hrun).
           exists (Transfer crc_request :: es).
           split; [constructor; [split; reflexivity | exact Hes]|].
           destruct Hrun as [-> | (err & rest & ->)];
             [now left | right; now exists err, rest].
        -- rewrite updateFirmware_eq.
           destruct (IH 5) as (es & Hes & Hrun).
           exists (Transfer crc_request :: Flash :: TimerSet 500 :: es).
           split; [repeat (constructor; [split; reflexivity|]); exact Hes|].
           destruct Hrun as [-> | (err & rest & ->)];
             [now left | right; now exists err, rest].
Qed.

(** What [afterUpdate] signals: the error it was given, or readiness. *)
Lemma afterUpdate_signals (callback : bool) (err : option error) (d : device)
    (script : list outcome) :
  let r := afterUpdate callback err (idle d) script in
  (exists e, signals (events r) = [EmitError e] /\ callbacks (events r) = 0%nat)
  \/ signals (events r) = [EmitReady].
Proof.
  destruct err as [e|]; [left; now exists e|]. right.
  unfold afterUpdate, update, setImmediate, setListening, spi_transfer,
    validating, end_turn, idle. simpl.
  destruct script as [|[|values] rest]; try reflexivity.
  simpl. destruct (_validateResponse values _); destruct callback; reflexivity.
Qed.

(** X26.  From a fresh driver the constructor signals at most once:
    nothing (a transfer stays outstanding), one error, or readiness,
    never an error and readiness both; when it signals an error its
    callback is not called. *)
Theorem constructor_signals_once (callback : bool) (d : device)
    (script : list outcome) :
  let r := Infrared callback (idle d) script in
  signals (events r) = []
  \/ (exists e, signals (events r) = [EmitError e]
                /\ callbacks (events r) = 0%nat)
  \/ signals (events r) = [EmitReady].
Proof.
  intros r. unfold r. rewrite Infrared_eq.
  set (d0 := set_listening false (set_transmitting false d)).
  destruct (establish_run_shape
              (fun err version =>
                 match err with
                 | Some e => emitError e (stop Idle)
                 | None => checkForFirmwareUpdate version (afterUpdate callback)
                 end) d0 script 3)
    as (es & Hes & [-> | [(rest & ->) | (v & rest & ->)]]).
  - left. simpl. clear -Hes. unfold signals.
    induction Hes as [|e es [Hs _] _ IH]; simpl; [reflexivity|].
    now rewrite Hs.
  - right. left. exists ECantConnect.
    destruct (plain_signals es
                (emitError ECantConnect (stop Idle) (idle d0) rest) Hes)
      as [-> ->]. split; reflexivity.
  - destruct (plain_signals es
                (checkForFirmwareUpdate v (afterUpdate callback)
                   (idle (set_connected true d0)) rest) Hes) as [-> ->].
    set (d1 := set_connected true d0).
    assert (Hafter : forall err s,
      (exists e, signals (events (afterUpdate callback err (idle d1) s))
                 = [EmitError e]
                 /\ callbacks (events (afterUpdate callback err (idle d1) s))
                    = 0%nat)
      \/ signals (events (afterUpdate callback err (idle d1) s)) = [EmitReady])
      by (intros err s; apply afterUpdate_signals).
    assert (Hupdate :
      signals (events (updateFirmware (afterUpdate callback) (idle d1) rest))
      = []
      \/ (exists e,
            signals (events (updateFirmware (afterUpdate callback)
                               (idle d1) rest)) = [EmitError e]
            /\ callbacks (events (updateFirmware (afterUpdate callback)
                                    (idle d1) rest)) = 0%nat)
      \/ signals (events (updateFirmware (afterUpdate callback)
                            (idle d1) rest)) = [EmitReady]).
    { rewrite updateFirmware_eq.
      destruct (crc_run_shape (afterUpdate callback) d1 rest 5)
        as (cs & Hcs & [-> | (err & s & ->)]).
      - left. simpl. clear -Hcs. unfold signals.
        induction Hcs as [|e cs [Hs _] _ IH]; simpl; [reflexivity|].
        now rewrite Hs.
      - destruct (plain_signals (Flash :: TimerSet 500 :: cs)
                    (afterUpdate callback err (idle d1) s)) as [Hs Hc].
        { repeat (constructor; [split; reflexivity|]). exact Hcs. }
        change (log Flash (log (TimerSet 500) (logs cs ?x)))
          with (logs (Flash :: TimerSet 500 :: cs) x).
        rewrite Hs, Hc. right. apply Hafter. }
    unfold checkForFirmwareUpdate, emit.
    change (signals (events (log (FirmwareCheck v) ?x)))
      with (signals (events x)).
    change (callbacks (events (log (FirmwareCheck v) ?x)))
      with (callbacks (events x)).
    destruct v as [version|]; [|right; apply Hafter].
    destruct (version <? FIRMWARE_VERSION);
      [exact Hupdate | right; apply Hafter].
Qed.

(** ** The exported updateFirmware *)

(** X25.  The exported [updateFirmware] reflashes once and calls back
    without asking the peripheral anything: no transfer is issued and
    no answer of the script is used, whereas the method of the same
    name follows its reflash with a CRC query. *)
Theorem exported_updateFirmware_skips_crc (callback : bool) (d : device)
    (script : list outcome) :
  Exported.updateFirmware callback (idle d) script =
  mkRun (Flash :: if callback then [Callback None] else []) d Idle
  /\ forall k, exists tail,
       events (updateFirmware k (idle d) script) =
       Flash :: TimerSet 500 :: Transfer crc_request :: tail.
Proof.
  split.
  - destruct callback; now destruct d.
  - intros k. rewrite updateFirmware_eq, readFirmwareCRC_eq.
    unfold spi_transfer. simpl. eexists. reflexivity.
Qed.
